(** * RAG-AISearch: the ingestion pipeline of [rag-myData.ipynb]

    A shallow embedding of the notebook's text pipeline: the token counter,
    [extract_text_from_file], [clean_markdown_content] and the chunking loop
    that embeds every chunk and writes it to the staging directory.

    Python values are modelled as follows.
    - A [str] is the list of its Unicode code points ([N]).
    - The functions of the Python library that the notebook calls
      ([str.split], [str.strip], [str.replace], [str.join], [str.endswith],
      [re.sub], [os.path.splitext]) are written out in the section
      [Python library].
    - The file system, the document readers (PyPDF2, python-docx, csv,
      pandas), the embedding service, [uuid.uuid4] and the write of a chunk
      file are fields of a record [World]: a run of the notebook is a
      function of the world it runs in.
    - An exception is a value of [exn], its class; a computation that may
      raise returns a [result]. The readers, the embedding call and the
      write of a chunk file may raise an exception of any class. [print],
      [uuid.uuid4] and the string functions are taken not to raise. *)

From Stdlib Require Import NArith Ascii String PrimFloat DecimalString DecimalN.
From stdpp Require Import gmap strings list.

Set Default Proof Using "Type".
Local Open Scope N_scope.

(* ===================================================================== *)
(** * Python library *)
(* ===================================================================== *)

Abbreviation str := (list N).

(** The code point of an ASCII character and the [str] of an ASCII literal. *)
Definition ch (a : ascii) : N := N_of_ascii a.
Definition py (s : string) : str := List.map N_of_ascii (list_ascii_of_string s).

(** [chr(10)], written ['\n'] in the notebook. *)
Definition LF : N := 10.

(** ** Whitespace

    [str.split()] and [str.strip()] use [Py_UNICODE_ISSPACE]: the code points
    U+0009..U+000D, U+001C..U+0020, U+0085, U+00A0, U+1680, U+2000..U+200A,
    U+2028, U+2029, U+202F, U+205F and U+3000. *)
Definition isspace (c : N) : bool :=
  ((9 <=? c) && (c <=? 13)) || ((28 <=? c) && (c <=? 32))
  || (c =? 133) || (c =? 160) || (c =? 5760)
  || ((8192 <=? c) && (c <=? 8202))
  || (c =? 8232) || (c =? 8233) || (c =? 8239) || (c =? 8287) || (c =? 12288).

(** [s.split()]: the maximal runs of non-whitespace characters of [s].
    [cur] is the run being read. *)
Fixpoint split_words (cur : str) (s : str) : list str :=
  match s with
  | [] => match cur with [] => [] | _ => [cur] end
  | c :: s' =>
      if isspace c
      then match cur with
           | [] => split_words [] s'
           | _ => cur :: split_words [] s'
           end
      else split_words (cur ++ [c]) s'
  end.

Definition str_split_whitespace (s : str) : list str := split_words [] s.

(** [s.strip()]. *)
Fixpoint lstrip (s : str) : str :=
  match s with
  | c :: s' => if isspace c then lstrip s' else s
  | [] => []
  end.

Fixpoint rstrip (s : str) : str :=
  match s with
  | [] => []
  | c :: s' =>
      match rstrip s' with
      | [] => if isspace c then [] else [c]
      | r => c :: r
      end
  end.

Definition strip (s : str) : str := rstrip (lstrip s).

(** [s.startswith(p)] and [s.endswith(p)]. *)
Fixpoint startswith (s p : str) {struct p} : bool :=
  match p, s with
  | [], _ => true
  | a :: p', b :: s' => (a =? b) && startswith s' p'
  | _ :: _, [] => false
  end.

Definition endswith (s suffix : str) : bool := startswith (rev s) (rev suffix).

(** [s.endswith((p1, ..., pn))]: a tuple of suffixes. *)
Definition endswith_any (s : str) (suffixes : list str) : bool :=
  existsb (endswith s) suffixes.

(** [p in s]: [p] occurs in [s] as a substring. *)
Fixpoint contains (s p : str) : bool :=
  startswith s p
  || match s with
     | [] => false
     | _ :: s' => contains s' p
     end.

(** [s.replace(old, new)] for a non-empty [old], as at every call of the
    notebook: the occurrences of [old] are found from left to right and do
    not overlap. [skip] counts the characters of the occurrence just replaced
    that are still to be passed over. *)
Fixpoint replace_from (old new : str) (skip : nat) (s : str) : str :=
  match s with
  | [] => []
  | c :: s' =>
      match skip with
      | S k => replace_from old new k s'
      | O =>
          if startswith s old
          then new ++ replace_from old new (length old - 1) s'
          else c :: replace_from old new 0 s'
      end
  end.

Definition str_replace (s old new : str) : str := replace_from old new 0 s.

(** [s.split(sep)] for a non-empty [sep]: the pieces between the
    occurrences of [sep], empty pieces included. The first piece of the
    result is the one being read: a character joins it, an occurrence of
    [sep] closes it. *)
Definition cons_first (c : N) (pieces : list str) : list str :=
  match pieces with
  | piece :: pieces' => (c :: piece) :: pieces'
  | [] => [[c]]
  end.

Fixpoint split_from (sep : str) (skip : nat) (s : str) : list str :=
  match s with
  | [] => [[]]
  | c :: s' =>
      match skip with
      | S k => split_from sep k s'
      | O =>
          if startswith s sep
          then [] :: split_from sep (length sep - 1) s'
          else cons_first c (split_from sep 0 s')
      end
  end.

Definition str_split (s sep : str) : list str := split_from sep 0 s.

(** [sep.join(l)]. *)
Fixpoint str_join (sep : str) (l : list str) : str :=
  match l with
  | [] => []
  | [x] => x
  | x :: l' => x ++ sep ++ str_join sep l'
  end.

(** [str(n)] for a non-negative integer, as an f-string prints it. *)
Definition str_of_int (n : N) : str := py (NilEmpty.string_of_uint (N.to_uint n)).

(** [s.rfind(c)] for a single character: the last index of [c]. *)
Fixpoint rfind (c : N) (s : str) : option nat :=
  match s with
  | [] => None
  | a :: s' =>
      match rfind c s' with
      | Some i => Some (S i)
      | None => if a =? c then Some O else None
      end
  end.

(** [os.path.splitext(p)] of [posixpath]: the extension starts at the last
    dot of the last path component, unless only dots precede it there. *)
Definition splitext (p : str) : str * str :=
  match rfind (ch ".") p with
  | None => (p, [])
  | Some dotIndex =>
      let filenameIndex := match rfind (ch "/") p with Some i => S i | None => O end in
      if (filenameIndex <=? dotIndex)%nat
         && existsb (fun c => negb (c =? ch "."))
                    (firstn (dotIndex - filenameIndex) (skipn filenameIndex p))
      then (firstn dotIndex p, skipn dotIndex p)
      else (p, [])
  end.

(** ** Regular expressions

    The two patterns of the notebook are sequences of escaped single
    characters and of capture groups around a greedy repetition (one or
    more, or zero or more) of a negated one-character class. Python's [re]
    is a backtracking matcher: a greedy group first takes as many characters
    as it can and gives them back one by one until the rest of the pattern
    matches. *)
Inductive cls : Type :=
  | Lit (c : N)       (* the character c *)
  | NotLit (c : N).   (* [^c]: every character but c, newline included *)

Definition cls_match (k : cls) (c : N) : bool :=
  match k with
  | Lit a => c =? a
  | NotLit a => negb (c =? a)
  end.

Inductive item : Type :=
  | One (k : cls)                 (* one character of the class *)
  | Group (min : nat) (k : cls).  (* ( k{min,} ), greedy and captured *)

Definition regex := list item.

(** The group has taken [acc]; try one more character first, and stop here
    (if at least [min] were taken) when the longer attempts all fail. *)
Fixpoint greedy {R : Type} (k : cls) (min : nat) (cont : str -> str -> option R)
    (acc : str) (s : str) : option R :=
  let stop := if (min <=? length acc)%nat then cont acc s else None in
  match s with
  | c :: s' =>
      if cls_match k c
      then match greedy k min cont (acc ++ [c]) s' with
           | Some r => Some r
           | None => stop
           end
      else stop
  | [] => stop
  end.

(** [pattern.match(s)]: the captured groups and the input left after the
    match, when the pattern matches a prefix of [s]. *)
Fixpoint match_here (re : regex) (s : str) : option (list str * str) :=
  match re with
  | [] => Some ([], s)
  | One k :: re' =>
      match s with
      | c :: s' => if cls_match k c then match_here re' s' else None
      | [] => None
      end
  | Group min k :: re' =>
      greedy k min
        (fun g rest =>
           match match_here re' rest with
           | Some (gs, r) => Some (g :: gs, r)
           | None => None
           end)
        [] s
  end.

(** [re.sub(pattern, repl, s)] for a pattern that matches no empty string:
    the leftmost match at every position, from left to right, without
    overlap; [repl] builds the replacement from the captured groups. *)
Fixpoint sub_from (re : regex) (repl : list str -> str) (skip : nat) (s : str) : str :=
  match s with
  | [] => []
  | c :: s' =>
      match skip with
      | S k => sub_from re repl k s'
      | O =>
          match match_here re s with
          | Some (gs, rest) =>
              repl gs ++ sub_from re repl (length s - length rest - 1) s'
          | None => c :: sub_from re repl 0 s'
          end
      end
  end.

Definition re_sub (re : regex) (repl : list str -> str) (s : str) : str :=
  sub_from re repl 0 s.

(** [re.search(pattern, s) is not None]: the pattern matches at some
    position of [s]. *)
Definition matches_at (re : regex) (s : str) : bool :=
  match match_here re s with Some _ => true | None => false end.

Fixpoint re_search (re : regex) (s : str) : bool :=
  matches_at re s
  || match s with
     | [] => false
     | _ :: s' => re_search re s'
     end.

(** The pattern syntax the notebook uses: an escaped character, or a
    capture group around a negated class of one escaped character followed
    by "+" or by "*". *)
Fixpoint compile (p : str) : option regex :=
  match p with
  | [] => Some []
  | a :: c :: p1 =>
      if a =? ch "\" then cons (One (Lit c)) <$> compile p1
      else
        match p1 with
        | h :: b :: x :: r :: q :: e :: p2 =>
            if (a =? ch "(") && (c =? ch "[") && (h =? ch "^") && (b =? ch "\")
               && (r =? ch "]") && (e =? ch ")")
            then
              if q =? ch "+" then cons (Group 1 (NotLit x)) <$> compile p2
              else if q =? ch "*" then cons (Group 0 (NotLit x)) <$> compile p2
              else None
            else None
        | _ => None
        end
  | _ => None
  end.

Definition re_compile (p : string) : regex := default [] (compile (py p)).

(* ===================================================================== *)
(** * The notebook *)
(* ===================================================================== *)

(** ** The token counter

    The notebook defines [num_tokens_from_string] twice: in the tiktoken
    cell, and again in the cell that counts the tokens of the sample files.
    A [def] binds the name in the global namespace of the kernel, a
    dictionary; the chunking cell calls what the name is bound to when it
    runs, after both cells. *)





(** The body of the second definition. *)
Definition num_tokens_from_string (content : str) : N :=
  N.of_nat (length (str_split_whitespace content)).

Section Tiktoken.
(** [tiktoken.get_encoding("cl100k_base").encode], not modelled further. *)
Variable cl100k_encode : str -> list N.


End Tiktoken.

(** ** clean_markdown_content *)

Definition link_pattern : regex := re_compile "\[([^\[]+)\]\(([^\)]+)\)".

Definition image_pattern : regex := re_compile "\!\[([^\[]*)\]\(([^\)]+)\)".

Definition clean_markdown_content (content : str) : str :=
  (* Remove links: the replacement is the first group *)
  let content := re_sub link_pattern (fun gs => nth 0 gs []) content in
  (* Remove images *)
  let content := re_sub image_pattern (fun _ => []) content in
  (* Remove all occurrences of the emphasis marker, then of the newline *)
  let content := str_replace content (py "**") [] in
  let content := str_replace content [LF] [] in
  content.

(** ** Exceptions *)

(** An exception, by its class. The first two are the classes that
    [extract_text_from_file] raises itself; the libraries may raise them
    too, as pandas does with [ValueError] for a file that is not a
    workbook. *)
Inductive exn : Type :=
  | FileNotFoundError
  | ValueError
  | TypeError                       (* iterating over None *)
  | OtherError (class_name : str).  (* an exception of any other class *)

Inductive result (A : Type) : Type :=
  | Return (a : A)
  | Raise (e : exn).
Arguments Return {A} a.
Arguments Raise {A} e.

(** ** The world of a run *)

(** The dictionary that the chunking cell writes for a chunk. *)
Record chunk_data : Type := {
  id : str;
  page_title : str;
  chunk_title : str;
  chunk_content : str;
  vector : list float
}.

(** What the notebook reads from outside and writes to it. A reader, the
    embedding call and the write of a chunk file may raise an exception of
    any class; nothing in the notebook catches one.
    [get_embeddings_vector] and [uuid4] are indexed by the value of the
    running chunk counter at the call, which differs from call to call: the
    same text may be refused once and embedded later. [json_dump] is
    [with open(f'{output_directory}/{chunk_file_name}', 'w') as f:
    json.dump(chunk_data, f)], by the name of the file: the exception
    raised, if any. *)
Record World : Type := {
  listdir : list str;                       (* os.listdir(input_directory) *)
  path_exists : str -> bool;                (* os.path.exists *)
  pdf_pages : str -> result (list str);     (* page.extract_text() of every page *)
  docx_paragraphs : str -> result (list str);   (* paragraph.text of every paragraph *)
  csv_rows : str -> result (list (list str));   (* the rows of csv.reader *)
  xlsx_sheets : str -> result (list str);   (* df.to_string(index=False) of every sheet *)
  get_embeddings_vector : N -> str -> result (list float);
  uuid4 : N -> str;
  json_dump : str -> chunk_data -> option exn
}.

(** ** extract_text_from_file *)

(** The readers, by the suffix of the path: the text gathered in [content]. *)
Definition read_with {A : Type} (reader : result A) (text : A -> str) : result str :=
  match reader with
  | Return a => Return (text a)
  | Raise e => Raise e
  end.

Definition read_content (w : World) (file_path : str) : result str :=
  if endswith file_path (py ".pdf") then
    read_with (pdf_pages w file_path) (fun pages => concat pages)
  else if endswith file_path (py ".docx") then
    read_with (docx_paragraphs w file_path) (fun paragraphs => concat paragraphs)
  else if endswith file_path (py ".csv") then
    read_with (csv_rows w file_path)
      (fun rows => concat (List.map (str_join (py " ")) rows))
  else if endswith file_path (py ".xlsx") then
    read_with (xlsx_sheets w file_path)
      (fun sheets => concat (List.map (fun t => t ++ [LF; LF]) sheets))
  else Raise ValueError.

(** The last line: the blocks between blank lines, or [None] for no text. *)
Definition split_content (content : str) : option (list str) :=
  match content with
  | [] => None
  | _ => Some (str_split content [LF; LF])
  end.

Definition extract_text_from_file (w : World) (file_path : str)
  : result (option (list str)) :=
  if negb (path_exists w file_path) then Raise FileNotFoundError
  else
    match read_content w file_path with
    | Return content => Return (split_content content)
    | Raise e => Raise e
    end.

(** ** The chunking cell *)

Definition input_directory : str := py "./data/myDocuments/".
Definition output_directory : str := py "./data/chunks/".
Definition suported_file_types : list str := [py ".pdf"; py ".docx"; py ".csv"; py ".xlsx"].

(** What a run does that can be seen from outside. [Embed] is a call of
    [get_embeddings_vector], whether it returns or raises; [WriteFile] is a
    chunk file written in full. *)
Inductive event : Type :=
  | Print (line : str)
  | Embed (text : str)                          (* a call of get_embeddings_vector *)
  | WriteFile (name : str) (data : chunk_data). (* json.dump into output_directory *)

Record state : Type := {
  chunk_index : N;
  trace : list event
}.

Definition emit (st : state) (evs : list event) : state :=
  {| chunk_index := chunk_index st; trace := trace st ++ evs |}.

Definition next_chunk (st : state) : state :=
  {| chunk_index := chunk_index st + 1; trace := trace st |}.

(** [chunk_content.split('.\n')[0].strip()] *)
Definition first_sentence (chunk_content : str) : str :=
  strip (hd [] (str_split chunk_content (py "." ++ [LF]))).

(** [if len(chunk_title) > 200: chunk_title = chunk_title[:200] + '...'] *)
Definition cap_title (chunk_title : str) : str :=
  if (200 <? length chunk_title)%nat
  then firstn 200 chunk_title ++ py "..."
  else chunk_title.

Definition derive_chunk_title (chunk_content : str) : str :=
  cap_title (first_sentence chunk_content).

(** [f'chunk_{chunk_index}_{page_title}.json'] and the six [replace]. *)
Definition chunk_file_template (chunk_index : N) (page_title : str) : str :=
  py "chunk_" ++ str_of_int chunk_index ++ py "_" ++ page_title ++ py ".json".

Definition chunk_file_name (chunk_index : N) (page_title : str) : str :=
  let s := chunk_file_template chunk_index page_title in
  let s := str_replace s (py "?") [] in
  let s := str_replace s (py ":") [] in
  let s := str_replace s (py "'") [] in
  let s := str_replace s (py "|") [] in
  let s := str_replace s (py "/") [] in
  let s := str_replace s (py "\") [] in
  s.

Definition overflow_line (chunk_index : N) (filename : str) : str :=
  py "Chunk " ++ str_of_int chunk_index ++ py " in file " ++ filename
  ++ py " has more than 8191 tokens".

Definition tokens_line (chunk_index : N) (filename : str) (tokens : N) : str :=
  py "Chunk " ++ str_of_int chunk_index ++ py " in file " ++ filename
  ++ py " has " ++ str_of_int tokens ++ py " tokens".

(** How the loop over the chunks of one file ends. *)
Inductive loop_end : Type :=
  | Completed (st : state)          (* every chunk was processed *)
  | Broke (st : state)              (* left by break *)
  | Raised (e : exn) (st : state).  (* an exception left the loop *)

(** [for chunk in extracted_paragraphs: ...] *)
Fixpoint process_chunks (w : World) (filename page_title : str)
    (chunks : list str) (st : state) : loop_end :=
  match chunks with
  | [] => Completed st
  | chunk :: rest =>
      let st := next_chunk st in
      let chunk_content := clean_markdown_content (strip chunk) in
      if 8191 <? num_tokens_from_string chunk_content then
        Broke (emit st [Print (overflow_line (chunk_index st) filename)])
      else
        let st := emit st [Print (tokens_line (chunk_index st) filename
                                     (num_tokens_from_string chunk_content));
                           Embed chunk_content] in
        match get_embeddings_vector w (chunk_index st) chunk_content with
        | Raise e => Raised e st
        | Return vector =>
            let chunk_title := derive_chunk_title chunk_content in
            let chunk_data :=
              {| id := uuid4 w (chunk_index st);
                 page_title := page_title;
                 chunk_title := chunk_title;
                 chunk_content := chunk_content;
                 vector := vector |} in
            let chunk_file_name := chunk_file_name (chunk_index st) page_title in
            match json_dump w chunk_file_name chunk_data with
            | Some e => Raised e (emit st [Print chunk_title])
            | None =>
                process_chunks w filename page_title rest
                  (emit st [Print chunk_title; WriteFile chunk_file_name chunk_data])
            end
        end
  end.

(** How the cell ends. *)
Inductive run_end : Type :=
  | Finished (st : state)
  | Aborted (e : exn) (st : state).

Definition final (r : run_end) : state :=
  match r with Finished st => st | Aborted _ st => st end.

(** [for filename in os.listdir(input_directory): ...] *)
Fixpoint process_files (w : World) (filenames : list str) (st : state) : run_end :=
  match filenames with
  | [] => Finished st
  | filename :: rest =>
      if endswith_any filename suported_file_types then
        let page_title := fst (splitext filename) in
        match extract_text_from_file w (input_directory ++ filename) with
        | Raise e => Aborted e st
        | Return None => Aborted TypeError st
        | Return (Some extracted_paragraphs) =>
            match process_chunks w filename page_title extracted_paragraphs st with
            | Completed st' | Broke st' => process_files w rest st'
            | Raised e st' => Aborted e st'
            end
        end
      else process_files w rest st
  end.

Definition initial : state := {| chunk_index := 0; trace := [] |}.

Definition ingest (w : World) : run_end := process_files w (listdir w) initial.

(** ** The cell that counts the tokens of the sample files *)

(** [if s:] on a string. *)
Definition nonempty (t : str) : bool :=
  match t with [] => false | _ => true end.

(** [os.path.join(a, b)] of [posixpath]. *)
Definition path_join (a b : str) : str :=
  if startswith b (py "/") then b
  else if nonempty a && negb (endswith a (py "/")) then a ++ py "/" ++ b
  else a ++ b.

(** The text gathered in [content], by the suffix of the file name; a file
    of another type leaves it empty. [pd.read_excel(file_path)] reads the
    first sheet. *)
Definition count_content (w : World) (filename file_path : str) : result str :=
  if endswith filename (py ".pdf") then
    read_with (pdf_pages w file_path) (fun pages => concat pages)
  else if endswith filename (py ".docx") then
    read_with (docx_paragraphs w file_path)
      (fun paragraphs => concat (List.map (fun t => t ++ [LF]) paragraphs))
  else if endswith filename (py ".csv") then
    read_with (csv_rows w file_path)
      (fun rows => concat (List.map (fun row => str_join (py " ") row ++ [LF]) rows))
  else if endswith filename (py ".xlsx") then
    match xlsx_sheets w file_path with
    | Return (sheet :: _) => Return sheet
    | Return [] => Raise ValueError   (* pandas: worksheet index 0 is invalid *)
    | Raise e => Raise e
    end
  else Return [].

Definition count_line (filename : str) (tokens : N) : str :=
  if 8191 <? tokens
  then py "File " ++ filename ++ py " has " ++ str_of_int tokens
       ++ py " tokens, which is more than 8191 (max) tokens."
  else py "File " ++ filename ++ py " has " ++ str_of_int tokens ++ py " tokens.".

(** [for filename in os.listdir(input_directory): ...]: the lines printed,
    and the exception that ended the cell if one did. *)
Fixpoint count_files (w : World) (filenames : list str) : list str * option exn :=
  match filenames with
  | [] => ([], None)
  | filename :: rest =>
      let file_path := path_join input_directory filename in
      match count_content w filename file_path with
      | Raise e => ([], Some e)
      | Return content =>
          let tokens := num_tokens_from_string content in
          let '(lines, e) := count_files w rest in
          (count_line filename tokens :: lines, e)
      end
  end.

(** ** The cell that uploads the chunks *)

(** The staging directory and the search client. [json_load] is the
    document of a file, [None] when [open] or [json.load] raises;
    [upload_documents] is [result[0].succeeded], [None] when the call
    raises. *)
Record Store : Type := {
  listdir_chunks : list str;                  (* os.listdir(output_directory) *)
  json_load : str -> option chunk_data;
  upload_documents : chunk_data -> option bool
}.

Inductive upload_event : Type :=
  | UploadDocuments (document : chunk_data)
  | UploadPrint (line : str).

Inductive upload_end : Type :=
  | UploadDone
  | LoadFailed
  | UploadFailed.

Definition upload_line (filename : str) (succeeded : bool) : str :=
  py "Upload of " ++ filename ++ py " succeeded: "
  ++ (if succeeded then py "True" else py "False").

(** [for filename in os.listdir(output_directory): ...] *)
Fixpoint upload_files (s : Store) (filenames : list str)
  : list upload_event * upload_end :=
  match filenames with
  | [] => ([], UploadDone)
  | filename :: rest =>
      if endswith filename (py ".json") then
        match json_load s (path_join output_directory filename) with
        | None => ([], LoadFailed)
        | Some document =>
            match upload_documents s document with
            | None => ([UploadDocuments document], UploadFailed)
            | Some succeeded =>
                let '(events, e) := upload_files s rest in
                (UploadDocuments document
                   :: UploadPrint (upload_line filename succeeded) :: events, e)
            end
        end
      else upload_files s rest
  end.

(* ===================================================================== *)
(** * Definitions used to state the properties *)
(* ===================================================================== *)

(** The number of characters that a match with the groups [gs] covers. *)
Fixpoint matched_length (re : regex) (gs : list str) : nat :=
  match re with
  | [] => 0
  | One _ :: re' => S (matched_length re' gs)
  | Group _ _ :: re' => length (hd [] gs) + matched_length re' (tl gs)
  end.

(** The number of places of [s] where a word starts: a character that is
    not whitespace, at the start or just after a whitespace character. *)
Fixpoint word_starts (after_space : bool) (s : str) : nat :=
  match s with
  | [] => 0
  | c :: s' =>
      (if after_space && negb (isspace c) then 1 else 0)%nat
      + word_starts (isspace c) s'
  end.

(** The six characters that the file name loses. *)
Definition stripped_chars : list N :=
  [ch "?"; ch ":"; ch "'"; ch "|"; ch "/"; ch "\"].

Definition end_state (r : loop_end) : state :=
  match r with
  | Completed st | Broke st | Raised _ st => st
  end.

(** A chunk candidate of a run: a block that [extract_text_from_file]
    returned for a supported file of the input directory. *)
Definition candidate (w : World) (filename chunk : str) : Prop :=
  filename ∈ listdir w
  ∧ endswith_any filename suported_file_types = true
  ∧ ∃ extracted_paragraphs,
      extract_text_from_file w (input_directory ++ filename)
      = Return (Some extracted_paragraphs)
      ∧ chunk ∈ extracted_paragraphs.

(** The reader that [extract_text_from_file] calls for the path raises
    [e]. *)
Definition reader_raises (w : World) (file_path : str) (e : exn) : Prop :=
  (endswith file_path (py ".pdf") = true ∧ pdf_pages w file_path = Raise e)
  ∨ (endswith file_path (py ".docx") = true ∧ docx_paragraphs w file_path = Raise e)
  ∨ (endswith file_path (py ".csv") = true ∧ csv_rows w file_path = Raise e)
  ∨ (endswith file_path (py ".xlsx") = true ∧ xlsx_sheets w file_path = Raise e).

(** Every chunk file of the trace stands at the end of a pass: just before
    it come the line printed for the chunk, with the number [i] of the
    chunk, the embedding call and the title; [i] is a value that the
    counter has had, and is the number in the name of the file. *)
Definition written_in_pass (st : state) : Prop :=
  ∀ tr1 name d tr2,
    trace st = tr1 ++ WriteFile name d :: tr2 →
    ∃ tr0 i filename,
      tr1 = tr0 ++ [Print (tokens_line i filename
                             (num_tokens_from_string (chunk_content d)));
                    Embed (chunk_content d);
                    Print (chunk_title d)]
      ∧ 1 ≤ i ≤ chunk_index st
      ∧ name = chunk_file_name i (page_title d).

(** What holds of every event of a run. *)
Definition event_ok (w : World) (e : event) : Prop :=
  match e with
  | Print _ => True
  | Embed text =>
      num_tokens_from_string text ≤ 8191
      ∧ ∃ filename chunk,
          candidate w filename chunk
          ∧ text = clean_markdown_content (strip chunk)
  | WriteFile name d =>
      num_tokens_from_string (chunk_content d) ≤ 8191
      ∧ chunk_title d = derive_chunk_title (chunk_content d)
      ∧ ∃ filename chunk i,
          candidate w filename chunk
          ∧ chunk_content d = clean_markdown_content (strip chunk)
          ∧ page_title d = (splitext filename).1
          ∧ name = chunk_file_name i (page_title d)
          ∧ id d = uuid4 w i
          ∧ get_embeddings_vector w i (chunk_content d) = Return (vector d)
  end.

(** What a pattern matches: the text [m] with the groups [gs]. *)
Inductive Matches : regex → str → list str → Prop :=
  | Matches_nil : Matches [] [] []
  | Matches_one k re c m gs :
      cls_match k c = true → Matches re m gs → Matches (One k :: re) (c :: m) gs
  | Matches_group min k re g m gs :
      Forall (λ c, cls_match k c = true) g → (min ≤ length g)%nat →
      Matches re m gs → Matches (Group min k :: re) (g ++ m) (g :: gs).

(** In [s] no closing bracket comes before the first opening bracket. *)
Fixpoint opens_first (s : str) : bool :=
  match s with
  | [] => true
  | c :: s' =>
      if c =? ch "[" then true
      else if c =? ch "]" then false
      else opens_first s'
  end.

(** A text as a sequence of plain stretches, links and images. *)
Inductive segment : Type :=
  | Plain (t : str)
  | Link (label url : str)
  | Image (alt url : str).

(** The characters that the patterns and the replacements look at. *)
Definition markup_chars : list N :=
  [ch "["; ch "]"; ch "("; ch ")"; ch "!"; ch "*"; LF].

Definition is_plain (t : str) : bool :=
  forallb (fun c => negb (existsb (N.eqb c) markup_chars)) t.

(** Labels, descriptions and targets are plain; labels and targets are
    not empty. *)
Definition segment_ok (g : segment) : bool :=
  match g with
  | Plain t => is_plain t
  | Link label url => is_plain label && nonempty label && is_plain url && nonempty url
  | Image alt url => is_plain alt && is_plain url && nonempty url
  end.

(** The Markdown source of a segment. *)
Definition markdown (g : segment) : str :=
  match g with
  | Plain t => t
  | Link label url => py "[" ++ label ++ py "](" ++ url ++ py ")"
  | Image alt url => py "![" ++ alt ++ py "](" ++ url ++ py ")"
  end.

(** What is left of a segment after the link substitution, and after the
    whole normalizer. *)
Definition after_links (g : segment) : str :=
  match g with
  | Plain t => t
  | Link label _ => label
  | Image [] url => py "![](" ++ url ++ py ")"
  | Image alt _ => py "!" ++ alt
  end.

Definition normalized (g : segment) : str :=
  match g with
  | Plain t => t
  | Link label _ => label
  | Image [] _ => []
  | Image alt _ => py "!" ++ alt
  end.

(** The tail of the two patterns, from the closing bracket of the label. *)
Definition url_part : regex :=
  [One (Lit (ch "]")); One (Lit (ch "(")); Group 1 (NotLit (ch ")")); One (Lit (ch ")"))].

(** The names of the files a trace writes, the chunks it writes and the
    documents an upload sends, in order. *)
Definition written_names (tr : list event) : list str :=
  omap (fun e => match e with WriteFile name _ => Some name | _ => None end) tr.

Definition written_chunks (tr : list event) : list chunk_data :=
  omap (fun e => match e with WriteFile _ d => Some d | _ => None end) tr.

Definition embedded_texts (tr : list event) : list str :=
  omap (fun e => match e with Embed text => Some text | _ => None end) tr.

Definition uploaded_documents (evs : list upload_event) : list chunk_data :=
  omap (fun e => match e with UploadDocuments d => Some d | _ => None end) evs.

(** The blocks of the supported files of a directory listing, in order. *)
Definition blocks_of (w : World) (filename : str) : list str :=
  match extract_text_from_file w (input_directory ++ filename) with
  | Return (Some extracted_paragraphs) => extracted_paragraphs
  | _ => []
  end.

Definition is_supported (filename : str) : bool :=
  endswith_any filename suported_file_types.

Definition all_blocks (w : World) (filenames : list str) : list str :=
  concat (List.map (blocks_of w) (List.filter is_supported filenames)).

Definition is_digit (c : N) : bool := (48 <=? c) && (c <=? 57).

(** The sum of the word counts of some texts. *)
Definition sum_tokens (texts : list str) : N :=
  fold_right (fun t n => num_tokens_from_string t + n) 0 texts.

(** Within a trace the names written are pairwise different, and each is the
    name of a chunk counter that the state has reached. *)
Definition names_ok (st : state) : Prop :=
  NoDup (written_names (trace st))
  ∧ Forall (λ n, ∃ i t, i ≤ chunk_index st ∧ n = chunk_file_name i t)
      (written_names (trace st)).

(** Membership in a list that is written out. *)
Ltac in_literal :=
  repeat first [apply list_elem_of_here | apply list_elem_of_further].
Ltac not_in_literal :=
  let H := fresh in
  intros H; apply list_elem_of_In in H; vm_compute in H; intuition discriminate.

(* ===================================================================== *)
(** * Sample worlds *)
(* ===================================================================== *)

Definition sample_vector : list float := [0.25%float; 0.5%float].

Fixpoint lookup_file (files : list (str * list str)) (path : str)
  : option (list str) :=
  match files with
  | [] => None
  | (name, texts) :: files' =>
      if bool_decide (name = path) then Some texts else lookup_file files' path
  end.

(** What the readers and the service of the sample worlds raise. *)
Definition unreadable : exn := OtherError (py "PdfReadError").
Definition refusal : exn := OtherError (py "RateLimitError").

Definition read_file (files : list (str * list str)) (path : str)
  : result (list str) :=
  match lookup_file files path with
  | Some texts => Return texts
  | None => Raise unreadable
  end.

(** Every path exists. The reader of a path listed in [files] returns its
    texts (pages, paragraphs or sheets), the reader of any other path
    raises. The embedding service raises at the calls numbered in
    [refused]. Every write succeeds. *)
Definition sample_world (names : list str) (files : list (str * list str))
    (refused : list N) : World :=
  {| listdir := names;
     path_exists := fun _ => true;
     pdf_pages := read_file files;
     docx_paragraphs := read_file files;
     csv_rows := fun _ => Raise unreadable;
     xlsx_sheets := read_file files;
     get_embeddings_vector :=
       fun i _ => if bool_decide (i ∈ refused) then Raise refusal else Return sample_vector;
     uuid4 := fun i => py "uuid-" ++ str_of_int i;
     json_dump := fun _ _ => None |}.

Definition in_dir (filename : str) : str := input_directory ++ filename.

(** [a.pdf] cannot be read, [b.pdf] is one short paragraph. *)
Definition two_documents : World :=
  sample_world [py "a.pdf"; py "b.pdf"]
    [(in_dir (py "b.pdf"), [py "Hello world"])] [].

(** The same directory without [a.pdf]. *)
Definition one_document : World :=
  sample_world [py "b.pdf"]
    [(in_dir (py "b.pdf"), [py "Hello world"])] [].

(** [c.pdf] has two blocks and the service refuses the first call. *)
Definition refused_call : World :=
  sample_world [py "c.pdf"; py "b.pdf"]
    [(in_dir (py "c.pdf"), [py "One" ++ [LF; LF] ++ py "Two"]);
     (in_dir (py "b.pdf"), [py "Hello world"])] [1].


(** 8192 words. *)
Definition long_block : str := concat (replicate (N.to_nat 8192) (py "w ")).

(** [big.pdf] has three blocks, the second one of 8192 words. *)
Definition overflow_document : World :=
  sample_world [py "notes.txt"; py "big.pdf"; py "b.pdf"]
    [(in_dir (py "big.pdf"),
      [py "Intro" ++ [LF; LF] ++ long_block ++ [LF; LF] ++ py "Tail"]);
     (in_dir (py "b.pdf"), [py "Hello world"])] [].

(** A text with a link, an image with a description and one without. *)
Definition sample_markdown : list segment :=
  [Plain (py "See "); Link (py "docs") (py "http://x"); Plain (py " and ");
   Image (py "logo") (py "l.png"); Image [] (py "x.png")].

(** A document of two paragraphs. *)
Definition notes_document : World :=
  sample_world [py "n.docx"] [(in_dir (py "n.docx"), [py "One "; py "two"])] [].

(** A workbook of two sheets. *)
Definition workbook : World :=
  sample_world [py "t.xlsx"] [(in_dir (py "t.xlsx"), [py "a b"; py "c"])] [].

(** A table of two rows. *)
Definition table : World :=
  {| listdir := [py "t.csv"];
     path_exists := fun _ => true;
     pdf_pages := fun _ => Raise unreadable;
     docx_paragraphs := fun _ => Raise unreadable;
     csv_rows :=
       fun path =>
         if bool_decide (path = in_dir (py "t.csv"))
         then Return [[py "a"; py "b c"]; [py "d"]]
         else Raise unreadable;
     xlsx_sheets := fun _ => Raise unreadable;
     get_embeddings_vector := fun _ _ => Return sample_vector;
     uuid4 := fun i => py "uuid-" ++ str_of_int i;
     json_dump := fun _ _ => None |}.

(** [report.xlsx] is not a workbook: pandas raises [ValueError]. *)
Definition not_a_workbook : World :=
  {| listdir := [py "report.xlsx"; py "b.pdf"];
     path_exists := fun _ => true;
     pdf_pages := read_file [(in_dir (py "b.pdf"), [py "Hello world"])];
     docx_paragraphs := fun _ => Raise unreadable;
     csv_rows := fun _ => Raise unreadable;
     xlsx_sheets := fun _ => Raise ValueError;
     get_embeddings_vector := fun _ _ => Return sample_vector;
     uuid4 := fun i => py "uuid-" ++ str_of_int i;
     json_dump := fun _ _ => None |}.

(** A document whose name has 251 characters, in a file system that
    refuses names of more than 255 characters, and a second document. *)
Definition long_name : str := concat (replicate 246 (py "a")) ++ py ".docx".

Definition long_name_document : World :=
  {| listdir := [long_name; py "b.pdf"];
     path_exists := fun _ => true;
     pdf_pages := read_file [(in_dir (py "b.pdf"), [py "Hello world"])];
     docx_paragraphs := read_file [(in_dir long_name, [py "One "; py "two"])];
     csv_rows := fun _ => Raise unreadable;
     xlsx_sheets := fun _ => Raise unreadable;
     get_embeddings_vector := fun _ _ => Return sample_vector;
     uuid4 := fun i => py "uuid-" ++ str_of_int i;
     json_dump :=
       fun name _ =>
         if (255 <? length name)%nat then Some (OtherError (py "OSError")) else None |}.

(** The chunk that the run over [one_document] writes, and a staging
    directory that holds it. *)
Definition sample_chunk : chunk_data :=
  {| id := py "uuid-1";
     page_title := py "b";
     chunk_title := py "Hello world";
     chunk_content := py "Hello world";
     vector := sample_vector |}.

Definition sample_store : Store :=
  {| listdir_chunks := [py "chunk_1_b.json"];
     json_load :=
       fun path =>
         if bool_decide (path = py "./data/chunks/chunk_1_b.json")
         then Some sample_chunk
         else None;
     upload_documents := fun _ => Some true |}.

(* ===================================================================== *)
(** * Facts about the Python library functions *)
(* ===================================================================== *)

(** ** The two patterns, compiled *)

Example link_pattern_items :
  link_pattern =
  [One (Lit (ch "[")); Group 1 (NotLit (ch "[")); One (Lit (ch "]"));
   One (Lit (ch "(")); Group 1 (NotLit (ch ")")); One (Lit (ch ")"))].
Proof. reflexivity. Qed.

Example image_pattern_items :
  image_pattern =
  [One (Lit (ch "!")); One (Lit (ch "[")); Group 0 (NotLit (ch "["));
   One (Lit (ch "]")); One (Lit (ch "(")); Group 1 (NotLit (ch ")"));
   One (Lit (ch ")"))].
Proof. reflexivity. Qed.

(** ** The library functions on small inputs *)

Example split_whitespace_runs :
  str_split_whitespace (py "  a b" ++ [LF; 160] ++ py "cc ") = [py "a"; py "b"; py "cc"].
Proof. reflexivity. Qed.

Example strip_both_ends : strip ([LF] ++ py "  a b " ++ [9; 8232]) = py "a b".
Proof. reflexivity. Qed.

Example replace_left_to_right :
  str_replace (py "a***b****") (py "**") [] = py "a*b".
Proof. reflexivity. Qed.

Example split_keeps_empty_pieces :
  str_split (py "a" ++ [LF; LF; LF] ++ py "b" ++ [LF; LF; LF; LF]) [LF; LF]
  = [py "a"; [LF] ++ py "b"; []; []].
Proof. reflexivity. Qed.

Example splitext_last_dot :
  splitext (py "a.b.pdf") = (py "a.b", py ".pdf")
  ∧ splitext (py ".pdf") = (py ".pdf", [])
  ∧ splitext (py "a.pdf/b") = (py "a.pdf/b", []).
Proof. done. Qed.

Example str_of_int_decimal : str_of_int 8191 = py "8191" ∧ str_of_int 0 = py "0".
Proof. done. Qed.

(** The label group gives characters back until the rest matches; a match
    starts at the leftmost bracket from which the whole pattern matches. *)
Example sub_backtracks :
  re_sub link_pattern (λ gs, nth 0 gs []) (py "[a](b)](c)") = py "a](b)"
  ∧ re_sub link_pattern (λ gs, nth 0 gs []) (py "[a][b](c)(d)") = py "[a]b(d)"
  ∧ re_sub link_pattern (λ gs, nth 0 gs []) (py "[a]() [b](c") = py "[a]() [b](c".
Proof. vm_compute. done. Qed.

Example image_with_empty_alt :
  clean_markdown_content (py "x ![](http://u) y") = py "x  y".
Proof. vm_compute. done. Qed.

(** ** Prefixes, substrings, replace and split *)

Section StrFacts.
Implicit Types (s p old new sep cur : str) (c : N).

Lemma startswith_prefix s p : startswith s p = true ↔ ∃ r, s = p ++ r.
Proof.
  revert s. induction p as [|a p IH]; intros s; simpl.
  - split; [eauto | done].
  - destruct s as [|b s].
    + split; [done | intros [r Hr]; discriminate].
    + rewrite andb_true_iff, N.eqb_eq, IH. split.
      * intros [-> [r ->]]. eauto.
      * intros [r [= -> ->]]. eauto.
Qed.

Lemma startswith_single s c :
  startswith s [c] = match s with b :: _ => c =? b | [] => false end.
Proof. destruct s; simpl; [done | apply andb_true_r]. Qed.

Lemma contains_cons_false c s p :
  contains (c :: s) p = false → startswith (c :: s) p = false ∧ contains s p = false.
Proof.
  intros H. change (startswith (c :: s) p || contains s p = false) in H.
  by apply orb_false_iff in H.
Qed.

Lemma contains_single s c : contains s [c] = false ↔ c ∉ s.
Proof.
  induction s as [|b s IH].
  - split; [intros _; apply not_elem_of_nil | done].
  - change (contains (b :: s) [c]) with (startswith (b :: s) [c] || contains s [c]).
    rewrite orb_false_iff, startswith_single, IH, N.eqb_neq, not_elem_of_cons.
    done.
Qed.

(** Replacing a single character by nothing filters it out. *)
Lemma replace_single s c : str_replace s [c] [] = filter (λ b, b ≠ c) s.
Proof.
  unfold str_replace. induction s as [|b s IH]; [done|].
  cbn [replace_from]. rewrite startswith_single. simpl length.
  destruct (N.eqb_spec c b) as [->|Hne].
  - rewrite filter_cons_False by tauto. simpl. exact IH.
  - rewrite filter_cons_True by congruence. by rewrite IH.
Qed.

(** Where [old] does not occur, [replace] changes nothing. *)
Lemma replace_absent s old new : contains s old = false → str_replace s old new = s.
Proof.
  unfold str_replace. induction s as [|b s IH]; [done|].
  intros [Hs Hc]%contains_cons_false.
  cbn [replace_from]. rewrite Hs. by rewrite IH.
Qed.

(** Where [sep] does not occur, [split] returns the string itself. *)
Lemma split_absent s sep : contains s sep = false → str_split s sep = [s].
Proof.
  unfold str_split. induction s as [|b s IH]; [done|].
  intros [Hs Hc]%contains_cons_false.
  cbn [split_from]. by rewrite Hs, IH.
Qed.

(** A substring that contains a character missing from [s] is missing too. *)
Lemma contains_absent_char s p c : c ∈ p → c ∉ s → contains s p = false.
Proof.
  intros Hp. induction s as [|b s IH]; intros Hs.
  - destruct p; [by apply elem_of_nil in Hp | done].
  - apply not_elem_of_cons in Hs as [Hb Hs].
    change (startswith (b :: s) p || contains s p = false).
    rewrite IH, orb_false_r by done.
    apply not_true_iff_false. intros [r Hr]%startswith_prefix.
    assert (c ∈ b :: s) as [->|?]%elem_of_cons; [|done..].
    rewrite Hr. apply elem_of_app. by left.
Qed.
End StrFacts.

(** ** Replacing shortens

    An occurrence that is replaced is found again after the replacement, and
    a replacement shorter than what it replaces leaves the string as long as
    it was only when nothing was replaced. *)

Section ReplaceFacts.
Local Open Scope nat_scope.
Implicit Types (s old new : str).

Lemma replace_from_skip old new n s :
  replace_from old new n s = replace_from old new 0 (drop n s).
Proof.
  revert n. induction s as [|c s IH]; intros [|n]; try done.
  cbn [replace_from drop]. apply IH.
Qed.

Lemma replace_match old new r :
  old ≠ [] → str_replace (old ++ r) old new = new ++ str_replace r old new.
Proof.
  intros Hne. destruct old as [|c old]; [done|]. unfold str_replace.
  cbn [app replace_from].
  assert (startswith (c :: old ++ r) (c :: old) = true) as ->.
  { apply startswith_prefix. by exists r. }
  f_equal. rewrite replace_from_skip. f_equal.
  replace (length (c :: old) - 1) with (length old) by (simpl; lia).
  by rewrite drop_app_length.
Qed.

Lemma replace_shrinks old new :
  length new < length old →
  ∀ s, length (str_replace s old new) ≤ length s
       ∧ (length (str_replace s old new) = length s → contains s old = false).
Proof.
  intros Hlt s. remember (length s) as n eqn:Hn. revert s Hn.
  induction n as [n IH] using lt_wf_ind. intros s ->.
  assert (old ≠ []) as Hne by (intros ->; simpl in Hlt; lia).
  destruct (startswith s old) eqn:Hs.
  - apply startswith_prefix in Hs as [r ->].
    rewrite replace_match by done. rewrite !length_app.
    destruct (IH (length r) ltac:(rewrite length_app; lia) r eq_refl) as [Hle _]. lia.
  - destruct s as [|c s].
    + cbn. destruct old; done.
    + assert (str_replace (c :: s) old new = c :: str_replace s old new) as ->.
      { unfold str_replace. cbn [replace_from]. by rewrite Hs. }
      destruct (IH (length s) ltac:(simpl; lia) s eq_refl) as [Hle Heq].
      change (contains (c :: s) old) with (startswith (c :: s) old || contains s old).
      rewrite Hs. cbn [length orb]. split; [lia|]. intros H. apply Heq. lia.
Qed.
End ReplaceFacts.

(** ** Matching and substituting *)

Section RegexFacts.
Local Open Scope nat_scope.
Implicit Types (re : regex) (s rest : str) (gs : list str) (repl : list str → str).

Lemma greedy_sound {R : Type} k min (cont : str → str → option R) acc s r :
  greedy k min cont acc s = Some r →
  ∃ g s', s = g ++ s' ∧ cont (acc ++ g) s' = Some r.
Proof.
  assert (∀ acc s, (if (min <=? length acc)%nat then cont acc s else None) = Some r →
                   ∃ g s', s = g ++ s' ∧ cont (acc ++ g) s' = Some r) as Hstop.
  { intros acc' s' H. destruct (min <=? length acc')%nat; [|done].
    exists [], s'. by rewrite app_nil_r. }
  revert acc. induction s as [|c s IH]; intros acc; cbn [greedy]; [apply Hstop|].
  destruct (cls_match k c); [|apply Hstop].
  destruct (greedy k min cont (acc ++ [c]) s) as [r'|] eqn:Hg; [|apply Hstop].
  intros [= ->]. apply IH in Hg as (g & s' & -> & Hc).
  exists (c :: g), s'. by rewrite <- app_assoc in Hc.
Qed.

Lemma match_here_sound re s gs rest :
  match_here re s = Some (gs, rest) →
  ∃ m, s = m ++ rest ∧ length m = matched_length re gs.
Proof.
  revert s gs rest. induction re as [|[k|min k] re IH]; intros s gs rest; cbn [match_here].
  - intros [= <- <-]. by exists [].
  - destruct s as [|c s]; [done|]. destruct (cls_match k c); [|done].
    intros (m & -> & Hm)%IH. exists (c :: m). simpl. by rewrite Hm.
  - intros (g & s' & -> & Hc)%greedy_sound. simpl in Hc.
    destruct (match_here re s') as [[gs' r]|] eqn:Hm; [|done].
    injection Hc as <- <-. apply IH in Hm as (m & -> & Hlen).
    exists (g ++ m). rewrite <- app_assoc, length_app. simpl. by rewrite Hlen.
Qed.

Lemma sub_from_skip re repl n s :
  sub_from re repl n s = sub_from re repl 0 (drop n s).
Proof.
  revert n. induction s as [|c s IH]; intros [|n]; try done.
  cbn [sub_from drop]. apply IH.
Qed.

Lemma re_sub_match re repl s gs rest :
  match_here re s = Some (gs, rest) → length rest < length s →
  re_sub re repl s = repl gs ++ re_sub re repl rest.
Proof.
  intros Hm Hlt. unfold re_sub. destruct s as [|c s]; [simpl in Hlt; lia|].
  cbn [sub_from]. rewrite Hm. f_equal. rewrite sub_from_skip. f_equal.
  apply match_here_sound in Hm as (m & Heq & _).
  destruct m as [|c' m]; [simpl in Heq; subst rest; lia|].
  injection Heq as -> ->.
  replace (length (c' :: m ++ rest) - length rest - 1) with (length m)
    by (simpl; rewrite length_app; lia).
  by rewrite drop_app_length.
Qed.

Lemma re_sub_no_match re repl s : re_search re s = false → re_sub re repl s = s.
Proof.
  unfold re_sub. induction s as [|c s IH]; [done|].
  cbn [re_search sub_from]. unfold matches_at.
  destruct (match_here re (c :: s)); [done|]. simpl. intros H. by rewrite IH.
Qed.

Lemma re_sub_shrinks re repl :
  (∀ s gs rest, match_here re s = Some (gs, rest) →
                length (repl gs) + length rest < length s) →
  ∀ s, length (re_sub re repl s) ≤ length s
       ∧ (length (re_sub re repl s) = length s → re_search re s = false).
Proof.
  intros Hshrink s. remember (length s) as n eqn:Hn. revert s Hn.
  induction n as [n IH] using lt_wf_ind. intros s ->.
  destruct s as [|c s].
  - cbn. unfold matches_at. destruct (match_here re []) as [[gs rest]|] eqn:Hm; [|done].
    apply Hshrink in Hm. simpl in Hm. lia.
  - destruct (match_here re (c :: s)) as [[gs rest]|] eqn:Hm.
    + pose proof (Hshrink _ _ _ Hm) as Hlt.
      rewrite (re_sub_match _ _ _ _ _ Hm) by lia. rewrite length_app.
      destruct (IH (length rest) ltac:(lia) rest eq_refl) as [Hle _]. lia.
    + assert (re_sub re repl (c :: s) = c :: re_sub re repl s) as ->.
      { unfold re_sub. cbn [sub_from]. by rewrite Hm. }
      destruct (IH (length s) ltac:(simpl; lia) s eq_refl) as [Hle Heq].
      cbn [length re_search]. unfold matches_at. rewrite Hm. split; [lia|].
      intros H. apply Heq. lia.
Qed.
End RegexFacts.

(** ** Words *)

Lemma split_words_length cur s :
  length (split_words cur s)
  = (word_starts (bool_decide (cur = [])) s + (if bool_decide (cur = []) then 0 else 1))%nat.
Proof.
  revert cur. induction s as [|c s IH]; intros cur.
  - simpl. destruct cur; simpl; done.
  - cbn [split_words word_starts]. destruct (isspace c) eqn:Hc.
    + destruct cur as [|a cur].
      * rewrite IH. simpl. lia.
      * cbn [length]. rewrite IH. simpl. lia.
    + rewrite IH. destruct cur as [|a cur]; simpl; lia.
Qed.



(* ===================================================================== *)
(** * Facts about clean_markdown_content *)
(* ===================================================================== *)

Section CleanFacts.
Implicit Types (s content : str) (repl : list str → str).

(** Both patterns need an opening bracket: the link pattern at its first
    character, the image pattern at its second. *)
Lemma link_needs_bracket c s : c ≠ ch "[" → match_here link_pattern (c :: s) = None.
Proof.
  intros Hc. rewrite link_pattern_items. cbn [match_here cls_match].
  by apply N.eqb_neq in Hc as ->.
Qed.

Lemma image_needs_bracket c s :
  ch "[" ∉ s → match_here image_pattern (c :: s) = None.
Proof.
  intros Hs. rewrite image_pattern_items. cbn [match_here cls_match].
  destruct (c =? ch "!"); [|done].
  destruct s as [|b s]; [done|].
  apply not_elem_of_cons in Hs as [Hb _].
  by apply not_eq_sym, N.eqb_neq in Hb as ->.
Qed.

Lemma search_link_no_bracket s : ch "[" ∉ s → re_search link_pattern s = false.
Proof.
  induction s as [|c s IH]; [done|].
  intros [Hc Hs]%not_elem_of_cons. cbn [re_search]. unfold matches_at.
  rewrite link_needs_bracket by congruence. by apply IH.
Qed.

Lemma search_image_no_bracket s : ch "[" ∉ s → re_search image_pattern s = false.
Proof.
  induction s as [|c s IH]; [done|].
  intros [Hc Hs]%not_elem_of_cons. cbn [re_search]. unfold matches_at.
  rewrite image_needs_bracket by done. by apply IH.
Qed.

(** The last step removes every newline. *)
Lemma clean_no_newline content : LF ∉ clean_markdown_content content.
Proof.
  unfold clean_markdown_content. rewrite replace_single.
  intros [H _]%list_elem_of_filter. done.
Qed.

(** A match of either pattern is longer than what replaces it. *)
Lemma link_match_shrinks s gs rest :
  match_here link_pattern s = Some (gs, rest) →
  (length (nth 0 gs []) + length rest < length s)%nat.
Proof.
  intros (m & -> & Hm)%match_here_sound. rewrite link_pattern_items in Hm.
  rewrite length_app. cbn [matched_length] in Hm. destruct gs; simpl in *; lia.
Qed.

Lemma image_match_shrinks s gs rest :
  match_here image_pattern s = Some (gs, rest) →
  (length (@nil N) + length rest < length s)%nat.
Proof.
  intros (m & -> & Hm)%match_here_sound. rewrite image_pattern_items in Hm.
  rewrite length_app. cbn [matched_length] in Hm. simpl. lia.
Qed.

(** The strings that the normalizer leaves as they are: those where neither
    pattern matches and where no emphasis marker and no newline occurs. *)
Lemma clean_fixed_iff y :
  clean_markdown_content y = y
  ↔ re_search link_pattern y = false
    ∧ re_search image_pattern y = false
    ∧ contains y (py "**") = false
    ∧ contains y [LF] = false.
Proof.
  split.
  - unfold clean_markdown_content. intros Heq.
    set (repl := λ gs : list str, nth 0 gs []) in *.
    destruct (re_sub_shrinks link_pattern repl link_match_shrinks y) as [H1 E1].
    set (y1 := re_sub link_pattern repl y) in *.
    destruct (re_sub_shrinks image_pattern (λ _, []) image_match_shrinks y1) as [H2 E2].
    set (y2 := re_sub image_pattern (λ _, []) y1) in *.
    destruct (replace_shrinks (py "**") [] ltac:(simpl; lia) y2) as [H3 E3].
    set (y3 := str_replace y2 (py "**") []) in *.
    destruct (replace_shrinks [LF] [] ltac:(simpl; lia) y3) as [H4 E4].
    assert (length (str_replace y3 [LF] []) = length y) as Hlen by (by rewrite Heq).
    assert (re_search link_pattern y = false) as L1 by (apply E1; lia).
    assert (y1 = y) as Hy1 by (by apply re_sub_no_match).
    assert (re_search image_pattern y1 = false) as L2 by (apply E2; lia).
    assert (y2 = y1) as Hy2 by (by apply re_sub_no_match).
    assert (contains y2 (py "**") = false) as L3 by (apply E3; lia).
    assert (y3 = y2) as Hy3 by (by apply replace_absent).
    assert (contains y3 [LF] = false) as L4 by (apply E4; lia).
    rewrite Hy3, Hy2, Hy1 in L4. rewrite Hy2, Hy1 in L3. rewrite Hy1 in L2. done.
  - intros (L1 & L2 & L3 & L4). unfold clean_markdown_content.
    rewrite (re_sub_no_match link_pattern) by done.
    rewrite (re_sub_no_match image_pattern) by done.
    rewrite (replace_absent _ (py "**")) by done. by apply replace_absent.
Qed.
End CleanFacts.

(* ===================================================================== *)
(** * Facts about the chunk title and the staging file name *)
(* ===================================================================== *)

(** On a content without newline the split at the period followed by a
    newline finds nothing to split. *)
Lemma first_sentence_no_newline content :
  LF ∉ content → first_sentence content = strip content.
Proof.
  intros Hn. unfold first_sentence.
  rewrite split_absent; [done|].
  apply (contains_absent_char _ _ LF); [|done].
  change (py ".") with [ch "."]. set_solver.
Qed.

Lemma chunk_file_name_filter i t :
  chunk_file_name i t = filter (λ c, c ∉ stripped_chars) (chunk_file_template i t).
Proof.
  unfold chunk_file_name.
  change (py "?") with [ch "?"]. change (py ":") with [ch ":"].
  change (py "'") with [ch "'"]. change (py "|") with [ch "|"].
  change (py "/") with [ch "/"]. change (py "\") with [ch "\"].
  rewrite !replace_single, !list_filter_filter.
  apply list_filter_iff. intros c. unfold stripped_chars.
  rewrite !not_elem_of_cons. split; [|tauto].
  intros H. repeat split; try tauto. apply not_elem_of_nil.
Qed.

(* ===================================================================== *)
(** * Facts about the chunking loop *)
(* ===================================================================== *)

Section LoopFacts.
Variable w : World.
Implicit Types (filename title chunk : str) (chunks : list str) (st : state).

Lemma process_chunks_ok filename chunks st :
  (∀ chunk, chunk ∈ chunks → candidate w filename chunk) →
  Forall (event_ok w) (trace st) →
  Forall (event_ok w)
    (trace (end_state (process_chunks w filename (splitext filename).1 chunks st))).
Proof.
  revert st. induction chunks as [|chunk rest IH]; intros st Hc Hst; [done|].
  cbn [process_chunks].
  assert (candidate w filename chunk) as Hchunk by (apply Hc; left).
  destruct (N.ltb_spec 8191 (num_tokens_from_string (clean_markdown_content (strip chunk))))
    as [Hover|Hfit].
  - simpl. apply Forall_app. split; [done|]. by repeat constructor.
  - assert (event_ok w (Embed (clean_markdown_content (strip chunk)))) as Hembed.
    { split; [done|]. eauto. }
    destruct (get_embeddings_vector w _ _) as [v|e] eqn:Hv.
    + destruct (json_dump w _ _) as [e|].
      * simpl. rewrite !Forall_app, !Forall_cons.
        split; [|by repeat constructor]. split; [done|].
        split; [done|]. split; [exact Hembed | constructor].
      * apply IH; [intros c Hin; apply Hc; by right|].
        simpl. rewrite !Forall_app, !Forall_cons. simpl.
        repeat split; try done.
        -- by exists filename, chunk.
        -- by exists filename, chunk, (chunk_index st + 1).
    + simpl. rewrite Forall_app, !Forall_cons.
      split; [done|]. split; [done|]. split; [exact Hembed | constructor].
Qed.

Lemma process_files_ok filenames st :
  (∀ filename, filename ∈ filenames → filename ∈ listdir w) →
  Forall (event_ok w) (trace st) →
  Forall (event_ok w) (trace (final (process_files w filenames st))).
Proof.
  revert st. induction filenames as [|filename rest IH]; intros st Hin Hst; [done|].
  assert (∀ f, f ∈ rest → f ∈ listdir w) as Hrest by (intros f ?; apply Hin; by right).
  cbn [process_files].
  destruct (endswith_any filename suported_file_types) eqn:Hsup; [|by apply IH].
  destruct (extract_text_from_file w (input_directory ++ filename))
    as [[ps|]|e] eqn:Hex; [|done..].
  pose proof (process_chunks_ok filename ps st) as Hps.
  destruct (process_chunks w filename _ ps st) as [st'|st'|e st']; simpl in Hps.
  - apply IH; [done|]. apply Hps; [|done].
    intros c Hc. repeat split; [apply Hin; by left|done|eauto].
  - apply IH; [done|]. apply Hps; [|done].
    intros c Hc. repeat split; [apply Hin; by left|done|eauto].
  - apply Hps; [|done].
    intros c Hc. repeat split; [apply Hin; by left|done|eauto].
Qed.

Lemma ingest_ok : Forall (event_ok w) (trace (final (ingest w))).
Proof. apply process_files_ok; [done | constructor]. Qed.

(** The loop over [pre ++ chunks] runs over [pre] and, if that completes,
    goes on with [chunks]. *)
Lemma process_chunks_app filename title pre chunks st :
  process_chunks w filename title (pre ++ chunks) st
  = match process_chunks w filename title pre st with
    | Completed st1 => process_chunks w filename title chunks st1
    | r => r
    end.
Proof.
  revert st. induction pre as [|chunk pre IH]; intros st; [done|].
  cbn [app process_chunks].
  destruct (8191 <? _); [done|].
  destruct (get_embeddings_vector w _ _); [|done].
  destruct (json_dump w _ _); [done | apply IH].
Qed.

Lemma emit_emit st (evs evs' : list event) :
  emit (emit st evs) evs' = emit st (evs ++ evs').
Proof. unfold emit. simpl. by rewrite app_assoc. Qed.

(** The counter counts the blocks that the loop has been over. *)
Lemma process_chunks_counter filename title chunks st st1 :
  process_chunks w filename title chunks st = Completed st1 →
  chunk_index st1 = chunk_index st + N.of_nat (length chunks).
Proof.
  revert st. induction chunks as [|chunk rest IH]; intros st.
  { intros [= <-]. simpl. lia. }
  cbn [process_chunks]. destruct (8191 <? _); [done|].
  destruct (get_embeddings_vector w _ _); [|done].
  destruct (json_dump w _ _); [done|].
  intros ->%IH. cbn [length emit next_chunk chunk_index]. lia.
Qed.

(** A path with none of the four suffixes is refused. *)
Lemma read_content_unsupported file_path :
  endswith_any file_path suported_file_types = false →
  read_content w file_path = Raise ValueError.
Proof.
  unfold endswith_any, suported_file_types. cbn [existsb].
  rewrite !orb_false_iff. intros (Hpdf & Hdocx & Hcsv & Hxlsx & _).
  unfold read_content. by rewrite Hpdf, Hdocx, Hcsv, Hxlsx.
Qed.

(** For a path with one of the four suffixes, an exception is the one of
    the reader. *)
Lemma read_content_raise file_path e :
  endswith_any file_path suported_file_types = true →
  read_content w file_path = Raise e → reader_raises w file_path e.
Proof.
  unfold endswith_any, suported_file_types, read_content, read_with, reader_raises.
  cbn [existsb]. rewrite orb_false_r.
  destruct (endswith file_path (py ".pdf"));
    [destruct (pdf_pages w _); [done | intros _ [= ->]; auto]|].
  destruct (endswith file_path (py ".docx"));
    [destruct (docx_paragraphs w _); [done | intros _ [= ->]; auto]|].
  destruct (endswith file_path (py ".csv"));
    [destruct (csv_rows w _); [done | intros _ [= ->]; auto]|].
  destruct (endswith file_path (py ".xlsx"));
    [destruct (xlsx_sheets w _); [done | intros _ [= ->]; auto 6]|].
  done.
Qed.



(** Where an exception of [extract_text_from_file] comes from. *)
Lemma extract_raise file_path e :
  extract_text_from_file w file_path = Raise e →
  (path_exists w file_path = false ∧ e = FileNotFoundError)
  ∨ (path_exists w file_path = true
     ∧ endswith_any file_path suported_file_types = false ∧ e = ValueError)
  ∨ (path_exists w file_path = true
     ∧ endswith_any file_path suported_file_types = true
     ∧ reader_raises w file_path e).
Proof.
  unfold extract_text_from_file. destruct (path_exists w file_path); cbn [negb].
  - destruct (read_content w file_path) as [content|e'] eqn:Hr; [done|].
    intros [= ->]. right.
    destruct (endswith_any file_path suported_file_types) eqn:Hsup.
    + right. eauto using read_content_raise.
    + left. rewrite read_content_unsupported in Hr by done. by injection Hr as <-.
  - intros [= <-]. by left.
Qed.

(** The suffix of a file name is the suffix of its path. *)
Lemma endswith_any_path filename :
  endswith_any filename suported_file_types = true →
  endswith_any (input_directory ++ filename) suported_file_types = true.
Proof.
  assert (∀ suffix, endswith filename suffix = true →
                    endswith (input_directory ++ filename) suffix = true) as Hdir.
  { intros suffix. unfold endswith. rewrite rev_app_distr.
    rewrite !startswith_prefix. intros [r ->]. rewrite <- app_assoc. eauto. }
  unfold endswith_any, suported_file_types. cbn [existsb].
  rewrite !orb_true_iff. intuition auto.
Qed.

(** ** Where a chunk file stands in the trace *)

Lemma split_at_write (tr evs tr1 tr2 : list event) name d :
  tr ++ evs = tr1 ++ WriteFile name d :: tr2 →
  (∃ l, tr = tr1 ++ WriteFile name d :: l ∧ tr2 = l ++ evs)
  ∨ (∃ l, tr1 = tr ++ l ∧ evs = l ++ WriteFile name d :: tr2).
Proof.
  revert tr1. induction tr as [|a tr IH]; intros tr1 Heq.
  { right. by exists tr1. }
  destruct tr1 as [|b tr1].
  - injection Heq as -> <-. left. by exists tr.
  - injection Heq as -> Heq. destruct (IH _ Heq) as [(l & -> & ->)|(l & -> & ->)].
    + left. by exists l.
    + right. by exists l.
Qed.

Lemma written_in_pass_emit st evs :
  written_in_pass st →
  (∀ name d, WriteFile name d ∉ evs) →
  written_in_pass (emit st evs).
Proof.
  intros Hst Hevs tr1 name d tr2 [(l & Heq & _)|(l & _ & ->)]%split_at_write.
  - apply (Hst _ _ _ _ Heq).
  - exfalso. apply (Hevs name d). apply elem_of_app. right. left.
Qed.

Lemma written_in_pass_next st :
  written_in_pass st → written_in_pass (next_chunk st).
Proof.
  intros Hst tr1 name d tr2 Heq.
  destruct (Hst _ _ _ _ Heq) as (tr0 & i & filename & -> & Hi & ->).
  exists tr0, i, filename. repeat split; simpl; try done; lia.
Qed.

Lemma process_chunks_written filename title chunks st :
  written_in_pass st →
  written_in_pass (end_state (process_chunks w filename title chunks st)).
Proof.
  revert st. induction chunks as [|chunk rest IH]; intros st Hst; [done|].
  cbn [process_chunks]. apply written_in_pass_next in Hst.
  assert (∀ l : list str, ∀ name d, WriteFile name d ∉ Print <$> l) as Hprint.
  { intros l name d (line & [=] & _)%list_elem_of_fmap. }
  destruct (8191 <? _).
  { apply written_in_pass_emit; [done|]. intros name d. apply (Hprint [_]). }
  assert (written_in_pass
            (emit (next_chunk st)
               [Print (tokens_line (chunk_index (next_chunk st)) filename
                         (num_tokens_from_string (clean_markdown_content (strip chunk))));
                Embed (clean_markdown_content (strip chunk))])) as Hembed.
  { apply written_in_pass_emit; [done|]. intros name d Hin.
    repeat (apply elem_of_cons in Hin as [[=]|Hin]). by apply elem_of_nil in Hin. }
  destruct (get_embeddings_vector w _ _) as [v|e]; [|exact Hembed].
  destruct (json_dump w _ _) as [e|].
  { apply written_in_pass_emit; [done|]. intros name d. apply (Hprint [_]). }
  apply IH. intros tr1 name d tr2 [(l & Heq & _)|(l & -> & Heq)]%split_at_write.
  - apply (Hembed _ _ _ _ Heq).
  - destruct l as [|a [|b l]]; [by simplify_eq/= | | by destruct l; simplify_eq/=].
    simplify_eq/=.
    exists (trace st), (chunk_index st + 1), filename.
    split; [by rewrite <- app_assoc|]. split; [lia | done].
Qed.

Lemma process_files_written filenames st :
  written_in_pass st → written_in_pass (final (process_files w filenames st)).
Proof.
  revert st. induction filenames as [|filename rest IH]; intros st Hst; [done|].
  cbn [process_files]. destruct (endswith_any filename suported_file_types); [|by apply IH].
  destruct (extract_text_from_file w _) as [[ps|]|e]; [|done..].
  pose proof (process_chunks_written filename (splitext filename).1 ps st Hst) as Hps.
  destruct (process_chunks w filename _ ps st) as [st'|st'|e st']; simpl in Hps;
    [by apply IH..|done].
Qed.
End LoopFacts.

(* ===================================================================== *)
(** * Sample runs *)
(* ===================================================================== *)

(** One short paragraph: one chunk, embedded once and written once. *)
Example run_one_document :
  ingest one_document
  = Finished
      {| chunk_index := 1;
         trace :=
           [Print (py "Chunk 1 in file b.pdf has 2 tokens");
            Embed (py "Hello world");
            Print (py "Hello world");
            WriteFile (py "chunk_1_b.json")
              {| id := py "uuid-1";
                 page_title := py "b";
                 chunk_title := py "Hello world";
                 chunk_content := py "Hello world";
                 vector := sample_vector |}] |}.
Proof. vm_compute. reflexivity. Qed.

(** A block of 8192 words ends its document: the block after it is not
    read, and the next document is. *)
Example run_overflow_document :
  ingest overflow_document
  = Finished
      {| chunk_index := 3;
         trace :=
           [Print (py "Chunk 1 in file big.pdf has 1 tokens");
            Embed (py "Intro");
            Print (py "Intro");
            WriteFile (py "chunk_1_big.json")
              {| id := py "uuid-1";
                 page_title := py "big";
                 chunk_title := py "Intro";
                 chunk_content := py "Intro";
                 vector := sample_vector |};
            Print (py "Chunk 2 in file big.pdf has more than 8191 tokens");
            Print (py "Chunk 3 in file b.pdf has 2 tokens");
            Embed (py "Hello world");
            Print (py "Hello world");
            WriteFile (py "chunk_3_b.json")
              {| id := py "uuid-3";
                 page_title := py "b";
                 chunk_title := py "Hello world";
                 chunk_content := py "Hello world";
                 vector := sample_vector |}] |}.
Proof. vm_compute. reflexivity. Qed.

(* ===================================================================== *)
(** * The token ceiling *)
(* ===================================================================== *)

(** C1. In every run, whatever the world and however the run ends, every
    text handed to the embedding service and every [chunk_content] written to
    the staging directory counts at most 8191 tokens for
    [num_tokens_from_string], and is the whole normalized text of a block
    that the extractor returned: nothing is cut to fit. Hence a block whose
    normalized text counts more than 8191 tokens is neither embedded nor
    written. *)
Theorem C1_token_ceiling (w : World) :
  Forall
    (λ e, match e with
          | Print _ => True
          | Embed text =>
              num_tokens_from_string text ≤ 8191
              ∧ ∃ filename chunk,
                  candidate w filename chunk
                  ∧ text = clean_markdown_content (strip chunk)
          | WriteFile _ d =>
              num_tokens_from_string (chunk_content d) ≤ 8191
              ∧ ∃ filename chunk,
                  candidate w filename chunk
                  ∧ chunk_content d = clean_markdown_content (strip chunk)
          end)
    (trace (final (ingest w)))
  ∧ ∀ chunk,
      8191 < num_tokens_from_string (clean_markdown_content (strip chunk)) →
      (Embed (clean_markdown_content (strip chunk)) ∉ trace (final (ingest w)))
      ∧ ∀ name d,
          WriteFile name d ∈ trace (final (ingest w)) →
          chunk_content d ≠ clean_markdown_content (strip chunk).
Proof.
  pose proof (ingest_ok w) as Hok. split.
  - eapply Forall_impl; [exact Hok|].
    intros [line|text|name d]; simpl; [done..|].
    intros (Htok & _ & filename & chunk & i & Hc & Hd & _). eauto.
  - intros chunk Hover. rewrite Forall_forall in Hok. split.
    + intros [Htok _]%Hok. lia.
    + intros name d [Htok _]%Hok Heq. rewrite Heq in Htok. lia.
Qed.

Lemma C1_witness :
  (Embed (clean_markdown_content (strip long_block))
   ∉ trace (final (ingest overflow_document)))
  ∧ ∀ name d,
      WriteFile name d ∈ trace (final (ingest overflow_document)) →
      chunk_content d ≠ clean_markdown_content (strip long_block).
Proof.
  apply (proj2 (C1_token_ceiling overflow_document) long_block).
  vm_compute. reflexivity.
Defined.

(* ===================================================================== *)
(** * The normalizer on the three examples *)
(* ===================================================================== *)

(** C3. The link example and the emphasis example are as claimed. On the
    image example the code does not return the empty string: the link
    substitution runs first and rewrites the bracketed part of the image,
    after which the image pattern finds nothing, and ["!alt"] is left. *)
Theorem C3_examples :
  clean_markdown_content (py "[label](http://x)") = py "label"
  ∧ clean_markdown_content (py "![alt](http://x)") = py "!alt"
  ∧ clean_markdown_content (py "a**b**c") = py "abc".
Proof. vm_compute. done. Qed.

(* ===================================================================== *)
(** * The chunk title *)
(* ===================================================================== *)

(** C4. The title is computed from the normalized content, in which no
    newline is left: the split at a period followed by a newline never
    splits, and the title of every written chunk is its whole normalized
    content, stripped and cut after 200 characters. For the block
    ["Title.\nBody"] the code gives ["Title.Body"], not ["Title"]. *)
Theorem C4_title_from_normalized_content :
  (∀ chunk,
     derive_chunk_title (clean_markdown_content (strip chunk))
     = cap_title (strip (clean_markdown_content (strip chunk))))
  ∧ (∀ w,
       Forall
         (λ e, match e with
               | WriteFile _ d => chunk_title d = cap_title (strip (chunk_content d))
               | _ => True
               end)
         (trace (final (ingest w))))
  ∧ derive_chunk_title (clean_markdown_content (strip (py "Title." ++ [LF] ++ py "Body")))
    = py "Title.Body".
Proof.
  assert (∀ chunk,
            derive_chunk_title (clean_markdown_content (strip chunk))
            = cap_title (strip (clean_markdown_content (strip chunk)))) as Htitle.
  { intros chunk. unfold derive_chunk_title.
    by rewrite first_sentence_no_newline by apply clean_no_newline. }
  split; [exact Htitle|]. split; [|vm_compute; reflexivity].
  intros w. eapply Forall_impl; [apply ingest_ok|].
  intros [line|text|name d]; simpl; [done..|].
  intros (_ & -> & filename & chunk & i & _ & -> & _). apply Htitle.
Qed.

(** C5. A title longer than 200 characters is cut to its first 200
    characters followed by three dots, 203 characters in all; a title of at
    most 200 characters is kept whole. So it is for the title of every
    written chunk. *)
Theorem C5_title_length :
  (∀ t : str,
     if (200 <? length t)%nat
     then cap_title t = take 200 t ++ py "..." ∧ length (cap_title t) = 203%nat
     else cap_title t = t)
  ∧ ∀ w,
      Forall
        (λ e, match e with
              | WriteFile _ d =>
                  let t := first_sentence (chunk_content d) in
                  if (200 <? length t)%nat
                  then chunk_title d = take 200 t ++ py "..."
                       ∧ (length (chunk_title d) ≤ 203)%nat
                  else chunk_title d = t
              | _ => True
              end)
        (trace (final (ingest w))).
Proof.
  assert (∀ t : str,
            if (200 <? length t)%nat
            then cap_title t = take 200 t ++ py "..." ∧ length (cap_title t) = 203%nat
            else cap_title t = t) as Hcap.
  { intros t. unfold cap_title. destruct (Nat.ltb_spec 200 (length t)) as [Hlt|Hle]; [|done].
    split; [done|]. rewrite length_app, length_take, Nat.min_l by lia. done. }
  split; [exact Hcap|].
  intros w. eapply Forall_impl; [apply ingest_ok|].
  intros [line|text|name d]; simpl; [done..|].
  intros (_ & Ht & _). unfold derive_chunk_title in Ht. rewrite Ht.
  specialize (Hcap (first_sentence (chunk_content d))).
  destruct (200 <? _)%nat; [|done]. destruct Hcap as [Hcut Hlen].
  split; [done | lia].
Qed.

(* ===================================================================== *)
(** * The staging file name *)
(* ===================================================================== *)

(** C9. The file name is the text [chunk_{chunk_index}_{page_title}.json]
    without its characters among the six [? : ' | / \], so that none of the
    six is left in it; every file written by a run has such a name. The
    number in the name is the value of the chunk counter in the pass that
    writes the file: the value before the loop over the blocks of the
    document plus the position of the block, counted from 1. In the trace
    of a run, every chunk file comes just after the line printed for its
    chunk, the embedding call and the title, and the number in its name is
    the number in that line. *)
Theorem C9_chunk_file_name :
  (∀ i t,
     chunk_file_name i t
     = filter (λ c, c ∉ stripped_chars) (chunk_file_template i t)
     ∧ chunk_file_template i t
       = py "chunk_" ++ str_of_int i ++ py "_" ++ t ++ py ".json"
     ∧ Forall (λ c, c ∉ stripped_chars) (chunk_file_name i t))
  ∧ (∀ w,
       Forall
         (λ e, match e with
               | WriteFile name d =>
                   (∃ i, name = chunk_file_name i (page_title d))
                   ∧ Forall (λ c, c ∉ stripped_chars) name
               | _ => True
               end)
         (trace (final (ingest w))))
  ∧ (∀ w filename title pre chunk post st st1 v,
       process_chunks w filename title pre st = Completed st1 →
       num_tokens_from_string (clean_markdown_content (strip chunk)) ≤ 8191 →
       get_embeddings_vector w (chunk_index st1 + 1)
         (clean_markdown_content (strip chunk)) = Return v →
       let d :=
         {| id := uuid4 w (chunk_index st1 + 1);
            page_title := title;
            chunk_title := derive_chunk_title (clean_markdown_content (strip chunk));
            chunk_content := clean_markdown_content (strip chunk);
            vector := v |} in
       json_dump w (chunk_file_name (chunk_index st1 + 1) title) d = None →
       chunk_index st1 + 1 = chunk_index st + N.of_nat (length pre) + 1
       ∧ process_chunks w filename title (pre ++ chunk :: post) st
         = process_chunks w filename title post
             (emit (next_chunk st1)
                [Print (tokens_line (chunk_index st1 + 1) filename
                          (num_tokens_from_string (chunk_content d)));
                 Embed (chunk_content d);
                 Print (chunk_title d);
                 WriteFile (chunk_file_name (chunk_index st1 + 1) title) d]))
  ∧ (∀ w tr1 name d tr2,
       trace (final (ingest w)) = tr1 ++ WriteFile name d :: tr2 →
       ∃ tr0 i filename,
         tr1 = tr0 ++ [Print (tokens_line i filename
                                (num_tokens_from_string (chunk_content d)));
                       Embed (chunk_content d);
                       Print (chunk_title d)]
         ∧ 1 ≤ i ≤ chunk_index (final (ingest w))
         ∧ name = chunk_file_name i (page_title d)).
Proof.
  assert (∀ i t, Forall (λ c, c ∉ stripped_chars) (chunk_file_name i t)) as Hnone.
  { intros i t. rewrite chunk_file_name_filter. apply Forall_forall.
    by intros c [Hc _]%list_elem_of_filter. }
  split; [|split; [|split]].
  - intros i t. split; [apply chunk_file_name_filter|]. split; [done | apply Hnone].
  - intros w. eapply Forall_impl; [apply ingest_ok|].
    intros [line|text|name d]; simpl; [done..|].
    intros (_ & _ & filename & chunk & i & _ & _ & _ & -> & _). eauto.
  - intros w filename title pre chunk post st st1 v Hpre Hfit Hv d Hd.
    split; [by rewrite (process_chunks_counter w _ _ _ _ _ Hpre)|].
    rewrite process_chunks_app, Hpre. cbn [process_chunks].
    apply N.ltb_ge in Hfit. rewrite Hfit.
    cbn [emit next_chunk chunk_index]. rewrite Hv. fold d. rewrite Hd.
    f_equal. unfold emit. simpl. by rewrite <- app_assoc.
  - intros w tr1 name d tr2. apply process_files_written.
    intros tr1' name' d' tr2' Hnil. by destruct tr1'.
Qed.

Lemma C9_witness :
  ∃ tr0 i filename,
    [Print (py "Chunk 1 in file b.pdf has 2 tokens");
     Embed (py "Hello world");
     Print (py "Hello world")]
    = tr0 ++ [Print (tokens_line i filename
                       (num_tokens_from_string (chunk_content sample_chunk)));
              Embed (chunk_content sample_chunk);
              Print (chunk_title sample_chunk)]
    ∧ 1 ≤ i ≤ chunk_index (final (ingest one_document))
    ∧ py "chunk_1_b.json" = chunk_file_name i (page_title sample_chunk).
Proof.
  apply (proj2 (proj2 (proj2 C9_chunk_file_name)) one_document _ _ _ []).
  vm_compute. reflexivity.
Defined.

(* ===================================================================== *)
(** * Idempotence of the normalizer *)
(* ===================================================================== *)

(** C2, as claimed, fails. The two asterisks around a newline are not
    adjacent when the emphasis markers are removed, and are adjacent once the
    newline is removed: a second pass removes them. A link whose label is
    itself a link is rewritten to a link, which a second pass rewrites. *)
Lemma C2_counterexample :
  (clean_markdown_content (py "*" ++ [LF] ++ py "*") = py "**"
   ∧ clean_markdown_content (py "**") = []
   ∧ clean_markdown_content (clean_markdown_content (py "*" ++ [LF] ++ py "*"))
     ≠ clean_markdown_content (py "*" ++ [LF] ++ py "*"))
  ∧ (clean_markdown_content (py "[[a](b)](c)") = py "[a](b)"
     ∧ clean_markdown_content (py "[a](b)") = py "a"
     ∧ clean_markdown_content (clean_markdown_content (py "[[a](b)](c)"))
       ≠ clean_markdown_content (py "[[a](b)](c)")).
Proof. vm_compute. repeat split; discriminate. Qed.

(** C2, amended. Normalizing a second time changes nothing exactly when the
    normalized text contains no emphasis marker and nothing that the link
    pattern or the image pattern matches; in particular when it contains no
    opening bracket and no emphasis marker. *)
Theorem C2_idempotent_iff (x : str) :
  (clean_markdown_content (clean_markdown_content x) = clean_markdown_content x
   ↔ re_search link_pattern (clean_markdown_content x) = false
     ∧ re_search image_pattern (clean_markdown_content x) = false
     ∧ contains (clean_markdown_content x) (py "**") = false)
  ∧ (contains (clean_markdown_content x) (py "[") = false →
     contains (clean_markdown_content x) (py "**") = false →
     clean_markdown_content (clean_markdown_content x) = clean_markdown_content x).
Proof.
  assert (contains (clean_markdown_content x) [LF] = false) as Hn
    by apply contains_single, clean_no_newline.
  split.
  - rewrite clean_fixed_iff. tauto.
  - intros Hb%contains_single Hs. apply clean_fixed_iff.
    auto using search_link_no_bracket, search_image_no_bracket.
Qed.

Lemma C2_witness :
  clean_markdown_content (clean_markdown_content (py "a**b [label](http://x)"))
  = clean_markdown_content (py "a**b [label](http://x)").
Proof.
  apply (proj2 (C2_idempotent_iff (py "a**b [label](http://x)")));
    vm_compute; reflexivity.
Defined.

(* ===================================================================== *)
(** * The first overflow ends the document *)
(* ===================================================================== *)

(** C6. When a block of a document counts more than 8191 tokens once
    normalized, the loop over the blocks of that document runs over the
    blocks before it and, if it reaches the block, prints the overflow line
    and leaves: the blocks after it play no part, none of them is embedded
    or written. Unless an exception was raised before, the run goes on with
    the next file of the directory. *)
Theorem C6_first_overflow_ends_document
    (w : World) (filename : str) (rest : list str) (st : state)
    (pre : list str) (chunk : str) (post : list str) :
  endswith_any filename suported_file_types = true →
  extract_text_from_file w (input_directory ++ filename)
  = Return (Some (pre ++ chunk :: post)) →
  8191 < num_tokens_from_string (clean_markdown_content (strip chunk)) →
  let page_title := (splitext filename).1 in
  let overflow st1 :=
    emit (next_chunk st1) [Print (overflow_line (chunk_index st1 + 1) filename)] in
  process_chunks w filename page_title (pre ++ chunk :: post) st
  = match process_chunks w filename page_title pre st with
    | Completed st1 => Broke (overflow st1)
    | r => r
    end
  ∧ process_files w (filename :: rest) st
    = match process_chunks w filename page_title pre st with
      | Completed st1 => process_files w rest (overflow st1)
      | Broke st1 => process_files w rest st1
      | Raised e st1 => Aborted e st1
      end.
Proof.
  intros Hsup Hex Hover page_title overflow.
  assert (process_chunks w filename page_title (pre ++ chunk :: post) st
          = match process_chunks w filename page_title pre st with
            | Completed st1 => Broke (overflow st1)
            | r => r
            end) as Hloop.
  { rewrite process_chunks_app.
    destruct (process_chunks w filename page_title pre st) as [st1|st1|e st1]; [|done..].
    cbn [process_chunks]. by apply N.ltb_lt in Hover as ->. }
  split; [exact Hloop|].
  cbn [process_files]. rewrite Hsup, Hex. fold page_title. rewrite Hloop.
  by destruct (process_chunks w filename page_title pre st).
Qed.

Lemma C6_witness :
  process_chunks overflow_document (py "big.pdf") (py "big")
    ([py "Intro"] ++ long_block :: [py "Tail"]) initial
  = match process_chunks overflow_document (py "big.pdf") (py "big") [py "Intro"] initial with
    | Completed st1 =>
        Broke (emit (next_chunk st1)
                 [Print (overflow_line (chunk_index st1 + 1) (py "big.pdf"))])
    | r => r
    end
  ∧ process_files overflow_document [py "big.pdf"; py "b.pdf"] initial
    = match process_chunks overflow_document (py "big.pdf") (py "big") [py "Intro"] initial with
      | Completed st1 =>
          process_files overflow_document [py "b.pdf"]
            (emit (next_chunk st1)
               [Print (overflow_line (chunk_index st1 + 1) (py "big.pdf"))])
      | Broke st1 => process_files overflow_document [py "b.pdf"] st1
      | Raised e st1 => Aborted e st1
      end.
Proof.
  apply (C6_first_overflow_ends_document overflow_document (py "big.pdf")
           [py "b.pdf"] initial [py "Intro"] long_block [py "Tail"]);
    vm_compute; reflexivity.
Defined.

(* ===================================================================== *)
(** * The outcomes of extract_text_from_file *)
(* ===================================================================== *)




(* ===================================================================== *)
(** * Errors during a run *)
(* ===================================================================== *)

(** C8, as claimed, fails: no exception is caught. When the reader of the
    first document raises, the run ends there and the second document, which
    alone gives one chunk, is not processed; when the embedding service
    refuses the first chunk of a document, its second chunk and the next
    document are not processed; so it is when the chunk file cannot be
    written. *)
Lemma C8_counterexample :
  ingest two_documents = Aborted unreadable initial
  ∧ (∃ name d, WriteFile name d ∈ trace (final (ingest one_document)))
  ∧ ingest refused_call
    = Aborted refusal
        {| chunk_index := 1;
           trace := [Print (py "Chunk 1 in file c.pdf has 1 tokens");
                     Embed (py "One")] |}
  ∧ ingest not_a_workbook = Aborted ValueError initial
  ∧ ingest long_name_document
    = Aborted (OtherError (py "OSError"))
        {| chunk_index := 1;
           trace := [Print (py "Chunk 1 in file " ++ long_name ++ py " has 2 tokens");
                     Embed (py "One two");
                     Print (py "One two")] |}.
Proof.
  split; [vm_compute; reflexivity|]. split; [|vm_compute; done].
  rewrite run_one_document. simpl. eexists _, _. do 3 right. left.
Qed.

(** C8, amended. A file whose name has none of the four suffixes is passed
    over and the run goes on; a path that is handed to
    [extract_text_from_file] has one of the four suffixes, so that an
    exception of the extraction is the not-found error or the exception of
    a reader. An exception raised by the extraction of a document, by the
    embedding service on a chunk that fits the ceiling, or by the write of
    the chunk file, ends the whole run at that point: what was printed,
    embedded and written before stays, the later chunks and documents are
    not processed. *)
Theorem C8_errors_end_the_run
    (w : World) (filename : str) (rest : list str) (st : state) :
  (endswith_any filename suported_file_types = false →
   process_files w (filename :: rest) st = process_files w rest st)
  ∧ (endswith_any filename suported_file_types = true →
     (∀ e,
        extract_text_from_file w (input_directory ++ filename) = Raise e →
        process_files w (filename :: rest) st = Aborted e st
        ∧ ((path_exists w (input_directory ++ filename) = false
            ∧ e = FileNotFoundError)
           ∨ reader_raises w (input_directory ++ filename) e))
     ∧ (∀ pre chunk post st1 e,
          extract_text_from_file w (input_directory ++ filename)
          = Return (Some (pre ++ chunk :: post)) →
          process_chunks w filename (splitext filename).1 pre st = Completed st1 →
          num_tokens_from_string (clean_markdown_content (strip chunk)) ≤ 8191 →
          get_embeddings_vector w (chunk_index st1 + 1)
            (clean_markdown_content (strip chunk)) = Raise e →
          process_files w (filename :: rest) st
          = Aborted e
              (emit (next_chunk st1)
                 [Print (tokens_line (chunk_index st1 + 1) filename
                           (num_tokens_from_string
                              (clean_markdown_content (strip chunk))));
                  Embed (clean_markdown_content (strip chunk))]))
     ∧ (∀ pre chunk post st1 v e,
          extract_text_from_file w (input_directory ++ filename)
          = Return (Some (pre ++ chunk :: post)) →
          process_chunks w filename (splitext filename).1 pre st = Completed st1 →
          num_tokens_from_string (clean_markdown_content (strip chunk)) ≤ 8191 →
          get_embeddings_vector w (chunk_index st1 + 1)
            (clean_markdown_content (strip chunk)) = Return v →
          json_dump w (chunk_file_name (chunk_index st1 + 1) (splitext filename).1)
            {| id := uuid4 w (chunk_index st1 + 1);
               page_title := (splitext filename).1;
               chunk_title := derive_chunk_title (clean_markdown_content (strip chunk));
               chunk_content := clean_markdown_content (strip chunk);
               vector := v |} = Some e →
          process_files w (filename :: rest) st
          = Aborted e
              (emit (next_chunk st1)
                 [Print (tokens_line (chunk_index st1 + 1) filename
                           (num_tokens_from_string
                              (clean_markdown_content (strip chunk))));
                  Embed (clean_markdown_content (strip chunk));
                  Print (derive_chunk_title (clean_markdown_content (strip chunk)))]))).
Proof.
  split.
  - intros Hsup. cbn [process_files]. by rewrite Hsup.
  - intros Hsup. split; [|split].
    + intros e Hex. split; [cbn [process_files]; by rewrite Hsup, Hex|].
      destruct (extract_raise w _ _ Hex) as [?|[(_ & Hno & _)|(_ & _ & ?)]]; auto.
      apply endswith_any_path in Hsup. congruence.
    + intros pre chunk post st1 e Hex Hpre Hfit Hembed.
      cbn [process_files]. rewrite Hsup, Hex, process_chunks_app, Hpre.
      cbn [process_chunks]. apply N.ltb_ge in Hfit. rewrite Hfit.
      cbn [emit next_chunk chunk_index]. by rewrite Hembed.
    + intros pre chunk post st1 v e Hex Hpre Hfit Hembed Hdump.
      cbn [process_files]. rewrite Hsup, Hex, process_chunks_app, Hpre.
      cbn [process_chunks]. apply N.ltb_ge in Hfit. rewrite Hfit.
      cbn [emit next_chunk chunk_index]. rewrite Hembed, Hdump.
      f_equal. unfold emit. simpl. by rewrite <- app_assoc.
Qed.

Lemma C8_witness :
  process_files two_documents [py "a.pdf"; py "b.pdf"] initial
  = Aborted unreadable initial
  ∧ ((path_exists two_documents (input_directory ++ py "a.pdf") = false
      ∧ unreadable = FileNotFoundError)
     ∨ reader_raises two_documents (input_directory ++ py "a.pdf") unreadable).
Proof.
  apply (proj1 (proj2 (C8_errors_end_the_run two_documents (py "a.pdf")
                         [py "b.pdf"] initial) eq_refl)).
  vm_compute. reflexivity.
Defined.

(* ===================================================================== *)
(** * The token counter in force *)
(* ===================================================================== *)



(* ===================================================================== *)
(** * Further facts about the Python library functions and the notebook *)
(* ===================================================================== *)

Section MatchFacts.
Local Open Scope nat_scope.
Implicit Types (re : regex) (s rest m g acc : str) (gs : list str).

Lemma greedy_sound_all {R : Type} k min (cont : str → str → option R) acc s r :
  greedy k min cont acc s = Some r →
  ∃ g s', s = g ++ s' ∧ Forall (λ c, cls_match k c = true) g
          ∧ min ≤ length (acc ++ g) ∧ cont (acc ++ g) s' = Some r.
Proof.
  assert (∀ acc s, (if (min <=? length acc)%nat then cont acc s else None) = Some r →
                   ∃ g s', s = g ++ s' ∧ Forall (λ c, cls_match k c = true) g
                           ∧ min ≤ length (acc ++ g) ∧ cont (acc ++ g) s' = Some r) as Hstop.
  { intros acc' s' H. destruct (Nat.leb_spec min (length acc')); [|done].
    exists [], s'. rewrite app_nil_r. by repeat split. }
  revert acc. induction s as [|c s IH]; intros acc; cbn [greedy]; [apply Hstop|].
  destruct (cls_match k c) eqn:Hc; [|apply Hstop].
  destruct (greedy k min cont (acc ++ [c]) s) as [r'|] eqn:Hg; [|apply Hstop].
  intros [= ->]. apply IH in Hg as (g & s' & -> & Hall & Hmin & Hcont).
  exists (c :: g), s'. rewrite <- app_assoc in Hmin, Hcont.
  repeat split; [by constructor|done..].
Qed.

Lemma match_here_matches re s gs rest :
  match_here re s = Some (gs, rest) → ∃ m, s = m ++ rest ∧ Matches re m gs.
Proof.
  revert s gs rest. induction re as [|[k|min k] re IH]; intros s gs rest; cbn [match_here].
  - intros [= <- <-]. exists []. split; [done | constructor].
  - destruct s as [|c s]; [done|]. destruct (cls_match k c) eqn:Hc; [|done].
    intros (m & -> & Hm)%IH. exists (c :: m). split; [done | by constructor].
  - intros (g & s' & -> & Hall & Hmin & Hc)%greedy_sound_all. simpl in Hc, Hmin.
    destruct (match_here re s') as [[gs' r]|] eqn:Hm; [|done].
    injection Hc as <- <-. apply IH in Hm as (m & -> & Hm).
    exists (g ++ m). rewrite <- app_assoc. split; [done | by constructor].
Qed.

(** A greedy group that cannot stop anywhere fails. *)
Lemma greedy_none {R : Type} k min (cont : str → str → option R) acc s :
  (∀ x y, s = x ++ y → Forall (λ c, cls_match k c = true) x →
          min ≤ length (acc ++ x) → cont (acc ++ x) y = None) →
  greedy k min cont acc s = None.
Proof.
  revert acc. induction s as [|c s IH]; intros acc Hnone.
  - cbn [greedy]. destruct (Nat.leb_spec min (length acc)); [|done].
    specialize (Hnone [] [] eq_refl). rewrite app_nil_r in Hnone. auto.
  - assert ((if min <=? length acc then cont acc (c :: s) else None) = None) as Hstop.
    { destruct (Nat.leb_spec min (length acc)); [|done].
      specialize (Hnone [] (c :: s) eq_refl). rewrite app_nil_r in Hnone. auto. }
    cbn [greedy]. destruct (cls_match k c) eqn:Hc; [|done].
    rewrite IH; [done|]. intros x y -> Hx Hmin. rewrite <- app_assoc in *.
    apply Hnone; [done| by constructor |done].
Qed.

(** A greedy group stops at the longest split after which the rest of the
    pattern matches. *)
Lemma greedy_split {R : Type} k min (cont : str → str → option R) acc g s' r :
  Forall (λ c, cls_match k c = true) g →
  min ≤ length (acc ++ g) →
  cont (acc ++ g) s' = Some r →
  (∀ x y, x ≠ [] → s' = x ++ y → Forall (λ c, cls_match k c = true) x →
          cont (acc ++ g ++ x) y = None) →
  greedy k min cont acc (g ++ s') = Some r.
Proof.
  revert acc. induction g as [|c g IH]; intros acc Hall Hmin Hcont Hlonger.
  - rewrite app_nil_r in Hmin, Hcont. cbn [app].
    assert ((if min <=? length acc then cont acc s' else None) = Some r) as Hstop.
    { by apply Nat.leb_le in Hmin as ->. }
    destruct s' as [|c s']; cbn [greedy]; [done|].
    destruct (cls_match k c) eqn:Hc; [|done].
    rewrite greedy_none; [done|]. intros x y -> Hx _. rewrite <- app_assoc.
    apply (Hlonger (c :: x) y); [done..|by constructor].
  - apply Forall_cons in Hall as [Hc Hall]. cbn [app greedy]. rewrite Hc.
    rewrite (IH (acc ++ [c])); [done|done|..].
    + by rewrite <- app_assoc.
    + by rewrite <- app_assoc.
    + intros x y Hx -> Hallx. rewrite <- app_assoc. by apply Hlonger.
Qed.

(** After a prefix where the pattern matches nowhere, the substitution goes
    on with the rest. *)
Lemma re_sub_skip re repl p s :
  (∀ i, i < length p → match_here re (drop i (p ++ s)) = None) →
  re_sub re repl (p ++ s) = p ++ re_sub re repl s.
Proof.
  unfold re_sub. induction p as [|c p IH]; intros Hnone; [done|].
  pose proof (Hnone 0 ltac:(simpl; lia)) as H0. cbn [app drop] in H0.
  cbn [app sub_from]. rewrite H0. f_equal.
  apply IH. intros i Hi. apply (Hnone (S i)). simpl. lia.
Qed.

Lemma opens_first_split s x y :
  opens_first s = true → s = x ++ y → ch "[" ∉ x → hd_error y ≠ Some (ch "]").
Proof.
  revert s. induction x as [|c x IH]; intros s Hs -> Hx.
  - simpl in *. destruct y as [|c y]; [done|]. simpl in *. intros [= ->]. done.
  - apply not_elem_of_cons in Hx as [Hc Hx]. cbn [app opens_first] in Hs.
    apply not_eq_sym, N.eqb_neq in Hc. rewrite Hc in Hs.
    destruct (c =? ch "]")%N; [done|]. by eapply IH.
Qed.

Lemma opens_first_app p s :
  ch "[" ∉ p → ch "]" ∉ p → opens_first (p ++ s) = opens_first s.
Proof.
  induction p as [|c p IH]; [done|].
  intros [Hc Hp]%not_elem_of_cons [Hc' Hp']%not_elem_of_cons. cbn [app opens_first].
  apply not_eq_sym, N.eqb_neq in Hc as ->. apply not_eq_sym, N.eqb_neq in Hc' as ->. auto.
Qed.
End MatchFacts.

Section MarkdownFacts.
Implicit Types (s t rest label url alt : str) (g : segment) (doc : list segment).

Lemma is_plain_spec t c : is_plain t = true → c ∈ markup_chars → c ∉ t.
Proof.
  intros Ht Hc Hin. unfold is_plain in Ht. rewrite forallb_forall in Ht.
  apply list_elem_of_In, Ht, negb_true_iff in Hin.
  assert (existsb (N.eqb c) markup_chars = true) as Hex; [|congruence].
  apply existsb_exists. exists c. split; [by apply list_elem_of_In | apply N.eqb_refl].
Qed.

Lemma is_plain_app t1 t2 : is_plain (t1 ++ t2) = is_plain t1 && is_plain t2.
Proof. apply forallb_app. Qed.

Lemma not_lit_all c t : c ∉ t → Forall (λ b, cls_match (NotLit c) b = true) t.
Proof.
  intros Hc. apply Forall_forall. intros b Hb. simpl. apply negb_true_iff, N.eqb_neq.
  intros ->. done.
Qed.

Lemma lit_all_not c t : Forall (λ b, cls_match (NotLit c) b = true) t → c ∉ t.
Proof.
  intros Hall Hc. rewrite Forall_forall in Hall. apply Hall in Hc. simpl in Hc.
  by rewrite N.eqb_refl in Hc.
Qed.

Lemma url_part_match url rest :
  url ≠ [] → ch ")" ∉ url →
  match_here url_part (py "](" ++ url ++ py ")" ++ rest) = Some ([url], rest).
Proof.
  intros Hne Hu. unfold url_part. cbn [py List.map list_ascii_of_string app match_here cls_match].
  change (N_of_ascii "]" =? ch "]") with true. change (N_of_ascii "(" =? ch "(") with true.
  cbn match.
  rewrite (greedy_split _ _ _ [] url _ ([url], rest)); [done|by apply not_lit_all|..].
  - destruct url; [done | simpl; lia].
  - done.
  - intros x y Hx Heq Hall. apply lit_all_not in Hall.
    destruct x as [|c x]; [done|]. injection Heq as <- _.
    apply not_elem_of_cons in Hall as [Hc _]. done.
Qed.

Lemma url_part_needs_bracket s gs rest :
  match_here url_part s = Some (gs, rest) → hd_error s = Some (ch "]").
Proof.
  unfold url_part. cbn [match_here cls_match]. destruct s as [|c s]; [done|].
  destruct (N.eqb_spec c (ch "]")) as [->|]; done.
Qed.

Lemma url_part_none s : hd_error s ≠ Some (ch "]") → match_here url_part s = None.
Proof.
  intros Hs. destruct (match_here url_part s) as [[gs rest]|] eqn:Hm; [|done].
  by apply url_part_needs_bracket in Hm.
Qed.

Lemma link_pattern_tail :
  link_pattern = One (Lit (ch "[")) :: Group 1 (NotLit (ch "[")) :: url_part.
Proof. reflexivity. Qed.

Lemma image_pattern_tail :
  image_pattern
  = One (Lit (ch "!")) :: One (Lit (ch "[")) :: Group 0 (NotLit (ch "[")) :: url_part.
Proof. reflexivity. Qed.

(** After the label, giving more characters to the label group fails: the
    rest would have to start with a closing bracket. *)
Lemma url_part_later url rest x y :
  ch "[" ∉ url → ch "]" ∉ url → opens_first rest = true →
  x ≠ [] → py "](" ++ url ++ py ")" ++ rest = x ++ y →
  Forall (λ c, cls_match (NotLit (ch "[")) c = true) x →
  match_here url_part y = None.
Proof.
  intros Hu1 Hu2 Hrest Hx Heq Hall. apply url_part_none.
  destruct x as [|c x]; [done|]. injection Heq as _ Heq.
  apply Forall_cons in Hall as [_ Hall%lit_all_not].
  eapply opens_first_split; [|exact Heq|done].
  change (opens_first (url ++ py ")" ++ rest) = true).
  by rewrite opens_first_app.
Qed.

Lemma link_match label url rest :
  label ≠ [] → ch "[" ∉ label →
  url ≠ [] → ch ")" ∉ url → ch "[" ∉ url → ch "]" ∉ url →
  opens_first rest = true →
  match_here link_pattern (ch "[" :: label ++ py "](" ++ url ++ py ")" ++ rest)
  = Some ([label; url], rest).
Proof.
  intros Hl1 Hl2 Hu1 Hu2 Hu3 Hu4 Hrest. rewrite link_pattern_tail.
  cbn [match_here cls_match]. rewrite N.eqb_refl.
  apply greedy_split; [by apply not_lit_all|..].
  - destruct label; [done | simpl; lia].
  - cbn [app]. by rewrite url_part_match.
  - intros x y Hx Heq Hall. by rewrite (url_part_later url rest x y).
Qed.

Lemma link_no_match_empty url rest :
  ch "[" ∉ url → ch "]" ∉ url → opens_first rest = true →
  match_here link_pattern (ch "[" :: py "](" ++ url ++ py ")" ++ rest) = None.
Proof.
  intros Hu1 Hu2 Hrest. rewrite link_pattern_tail.
  cbn [match_here cls_match]. rewrite N.eqb_refl.
  apply greedy_none. intros x y Heq Hall Hmin. cbn [app] in *.
  rewrite (url_part_later url rest x y); [done..| |done|done].
  intros ->. simpl in Hmin. lia.
Qed.

Lemma image_match_empty url rest :
  url ≠ [] → ch ")" ∉ url → ch "[" ∉ url → ch "]" ∉ url →
  opens_first rest = true →
  match_here image_pattern (ch "!" :: ch "[" :: py "](" ++ url ++ py ")" ++ rest)
  = Some ([[]; url], rest).
Proof.
  intros Hu1 Hu2 Hu3 Hu4 Hrest. rewrite image_pattern_tail.
  cbn [match_here cls_match]. rewrite !N.eqb_refl.
  apply (greedy_split _ _ _ [] [] (py "](" ++ url ++ py ")" ++ rest)); [done|simpl; lia|..].
  - cbn [app]. by rewrite (url_part_match url rest).
  - intros x y Hx Heq Hall. cbn [app]. by rewrite (url_part_later url rest x y).
Qed.

Lemma image_none c s :
  c ≠ ch "!" ∨ hd_error s ≠ Some (ch "[") → match_here image_pattern (c :: s) = None.
Proof.
  intros H. rewrite image_pattern_tail. cbn [match_here cls_match].
  destruct (N.eqb_spec c (ch "!")) as [->|]; [|done].
  destruct H as [|H]; [done|]. destruct s as [|b s]; [done|].
  destruct (N.eqb_spec b (ch "[")) as [->|]; done.
Qed.

Lemma re_sub_cons_none re repl c s :
  match_here re (c :: s) = None → re_sub re repl (c :: s) = c :: re_sub re repl s.
Proof. intros H. unfold re_sub. cbn [sub_from]. by rewrite H. Qed.

Lemma link_skip repl p s :
  ch "[" ∉ p → re_sub link_pattern repl (p ++ s) = p ++ re_sub link_pattern repl s.
Proof.
  induction p as [|c p IH]; [done|]. intros [Hc Hp]%not_elem_of_cons.
  cbn [app]. rewrite re_sub_cons_none by (apply link_needs_bracket; congruence).
  by rewrite IH.
Qed.

Lemma image_skip repl p s :
  ch "!" ∉ p → re_sub image_pattern repl (p ++ s) = p ++ re_sub image_pattern repl s.
Proof.
  induction p as [|c p IH]; [done|]. intros [Hc Hp]%not_elem_of_cons.
  cbn [app]. rewrite re_sub_cons_none by (apply image_none; left; congruence).
  by rewrite IH.
Qed.

Lemma opens_first_markdown doc :
  forallb segment_ok doc = true → opens_first (concat (List.map markdown doc)) = true.
Proof.
  induction doc as [|[t|label url|alt url] doc IH]; [done|..];
    cbn [forallb List.map concat markdown]; intros [Hg Hdoc]%andb_true_iff; [|done..].
  rewrite opens_first_app; [auto|..]; apply is_plain_spec; try done; in_literal.
Qed.

Lemma opens_first_after_links doc :
  forallb segment_ok doc = true → opens_first (concat (List.map after_links doc)) = true.
Proof.
  induction doc as [|[t|label url|alt url] doc IH]; [done|..];
    cbn [forallb List.map concat after_links segment_ok];
    intros [Hg Hdoc]%andb_true_iff.
  - rewrite opens_first_app; [auto|..]; apply is_plain_spec; try done; in_literal.
  - apply andb_true_iff in Hg as [[[Hl _]%andb_true_iff _]%andb_true_iff _].
    rewrite opens_first_app; [auto|..]; apply is_plain_spec; try done; in_literal.
  - destruct alt as [|c alt]; [done|].
    apply andb_true_iff in Hg as [[Ha _]%andb_true_iff _].
    rewrite <- app_assoc. rewrite (opens_first_app (py "!")) by not_in_literal.
    rewrite opens_first_app; [auto|..]; apply is_plain_spec; try done; in_literal.
Qed.

Lemma segment_ok_link label url :
  segment_ok (Link label url) = true →
  is_plain label = true ∧ label ≠ [] ∧ is_plain url = true ∧ url ≠ [].
Proof.
  cbn [segment_ok]. rewrite !andb_true_iff. intros [[[Hl Hl'] Hu] Hu'].
  repeat split; [done| by destruct label |done| by destruct url].
Qed.

Lemma segment_ok_image alt url :
  segment_ok (Image alt url) = true →
  is_plain alt = true ∧ is_plain url = true ∧ url ≠ [].
Proof.
  cbn [segment_ok]. rewrite !andb_true_iff. intros [[Ha Hu] Hu'].
  repeat split; [done..| by destruct url].
Qed.

(** The link pass rewrites every link to its label and the bracketed part
    of every image with an alt text to the alt text. *)
Lemma link_pass doc :
  forallb segment_ok doc = true →
  re_sub link_pattern (λ gs, nth 0 gs []) (concat (List.map markdown doc))
  = concat (List.map after_links doc).
Proof.
  induction doc as [|g doc IH]; [done|].
  cbn [forallb List.map concat]. intros [Hg Hdoc]%andb_true_iff.
  pose proof (opens_first_markdown doc Hdoc) as Hopen. specialize (IH Hdoc).
  destruct g as [t|label url|alt url]; cbn [markdown after_links].
  - rewrite link_skip by (apply is_plain_spec; [done | in_literal]). by rewrite IH.
  - apply segment_ok_link in Hg as (Hl & Hl' & Hu & Hu').
    rewrite <- !app_assoc.
    change (py "[" ++ ?x) with (ch "[" :: x).
    rewrite (re_sub_match _ _ _ [label; url] (concat (List.map markdown doc)));
      [by rewrite IH| |].
    + apply (link_match label url); try done; apply is_plain_spec; try done; in_literal.
    + cbn [length]. rewrite !length_app. lia.
  - apply segment_ok_image in Hg as (Ha & Hu & Hu').
    assert ((ch "[" ∉ url) ∧ (ch "]" ∉ url) ∧ (ch ")" ∉ url)) as (Hu1 & Hu2 & Hu3)
      by (repeat split; apply is_plain_spec; try done; in_literal).
    rewrite <- !app_assoc.
    change (py "![" ++ alt ++ py "](" ++ url ++ py ")" ++ concat (List.map markdown doc))
      with (ch "!" :: ch "[" :: alt ++ py "](" ++ url ++ py ")" ++ concat (List.map markdown doc)).
    rewrite re_sub_cons_none by (by apply link_needs_bracket).
    destruct alt as [|c alt].
    + cbn [app]. rewrite re_sub_cons_none by (by apply link_no_match_empty).
      rewrite !(app_assoc (py "](")), (app_assoc (py "](" ++ url)).
      rewrite link_skip, IH.
      * by rewrite <- !app_assoc.
      * rewrite !not_elem_of_app. repeat split; [not_in_literal|done|not_in_literal].
    + rewrite (re_sub_match _ _ _ [c :: alt; url] (concat (List.map markdown doc)));
        [by rewrite IH| |].
      * apply (link_match (c :: alt) url); try done.
        apply is_plain_spec; [done | in_literal].
      * cbn [length]. rewrite !length_app. lia.
Qed.

(** The image pass removes what is left of the images: those without alt
    text. *)
Lemma image_pass doc :
  forallb segment_ok doc = true →
  re_sub image_pattern (λ _, []) (concat (List.map after_links doc))
  = concat (List.map normalized doc).
Proof.
  induction doc as [|g doc IH]; [done|].
  cbn [forallb List.map concat]. intros [Hg Hdoc]%andb_true_iff.
  pose proof (opens_first_after_links doc Hdoc) as Hopen. specialize (IH Hdoc).
  destruct g as [t|label url|alt url]; cbn [after_links normalized].
  - rewrite image_skip by (apply is_plain_spec; [done | in_literal]). by rewrite IH.
  - apply segment_ok_link in Hg as (Hl & Hl' & Hu & Hu').
    rewrite image_skip by (apply is_plain_spec; [done | in_literal]). by rewrite IH.
  - apply segment_ok_image in Hg as (Ha & Hu & Hu').
    destruct alt as [|c alt].
    + rewrite <- !app_assoc.
      change (py "![](" ++ ?x) with (ch "!" :: ch "[" :: py "](" ++ x).
      rewrite (re_sub_match _ _ _ [[]; url] (concat (List.map after_links doc)));
        [by rewrite IH| |].
      * apply (image_match_empty url); try done; apply is_plain_spec; try done; in_literal.
      * cbn [length]. rewrite !length_app. lia.
    + rewrite <- !app_assoc.
      change (py "!" ++ ?x) with (ch "!" :: x).
      rewrite re_sub_cons_none.
      * rewrite image_skip by (apply is_plain_spec; [done | in_literal]).
        by rewrite IH.
      * apply image_none. right. simpl. intros [= ->].
        eapply (is_plain_spec _ (ch "[")); [exact Ha | in_literal | left].
Qed.

Lemma normalized_chars c doc :
  forallb segment_ok doc = true → c ∈ markup_chars → c ≠ ch "!" →
  c ∉ concat (List.map normalized doc).
Proof.
  intros Hdoc Hc Hbang. induction doc as [|g doc IH]; [apply not_elem_of_nil|].
  cbn [forallb List.map concat] in *. apply andb_true_iff in Hdoc as [Hg Hdoc].
  rewrite not_elem_of_app. split; [|auto].
  destruct g as [t|label url|alt url]; cbn [normalized].
  - by apply is_plain_spec.
  - apply segment_ok_link in Hg as (Hl & _). by apply is_plain_spec.
  - apply segment_ok_image in Hg as (Ha & _). destruct alt as [|a alt]; [apply not_elem_of_nil|].
    apply not_elem_of_cons. split; [done | by apply is_plain_spec].
Qed.

End MarkdownFacts.

Section DeletionFacts.
Implicit Types (s t rest m old : str) (gs : list str) (re : regex).

(** What the link pattern matches is a link: a label without opening
    bracket between brackets, a target without closing parenthesis between
    parentheses, both not empty. *)
Lemma link_match_shape s gs rest :
  match_here link_pattern s = Some (gs, rest) →
  ∃ label url,
    gs = [label; url]
    ∧ s = py "[" ++ label ++ py "](" ++ url ++ py ")" ++ rest
    ∧ label ≠ [] ∧ (ch "[" ∉ label) ∧ url ≠ [] ∧ (ch ")" ∉ url).
Proof.
  intros (m & -> & Hm)%match_here_matches. rewrite link_pattern_items in Hm.
  inversion Hm as [|k1 re1 c1 m1 gs1 Hc1 Hm1|]; subst.
  inversion Hm1 as [| |min2 k2 re2 label m2 gs2 Hlabel Hmin2 Hm2]; subst.
  inversion Hm2 as [|k3 re3 c3 m3 gs3 Hc3 Hm3|]; subst.
  inversion Hm3 as [|k4 re4 c4 m4 gs4 Hc4 Hm4|]; subst.
  inversion Hm4 as [| |min5 k5 re5 url m5 gs5 Hurl Hmin5 Hm5]; subst.
  inversion Hm5 as [|k6 re6 c6 m6 gs6 Hc6 Hm6|]; subst.
  inversion Hm6; subst.
  apply N.eqb_eq in Hc1 as ->, Hc3 as ->, Hc4 as ->, Hc6 as ->.
  exists label, url. repeat split.
  - cbn [app]. rewrite <- app_assoc. cbn [app]. by rewrite <- app_assoc.
  - intros ->. simpl in Hmin2. lia.
  - by apply lit_all_not.
  - intros ->. simpl in Hmin5. lia.
  - by apply lit_all_not.
Qed.

(** What the image pattern matches is an image. *)
Lemma image_match_shape s gs rest :
  match_here image_pattern s = Some (gs, rest) →
  ∃ alt url,
    gs = [alt; url]
    ∧ s = py "![" ++ alt ++ py "](" ++ url ++ py ")" ++ rest
    ∧ (ch "[" ∉ alt) ∧ url ≠ [] ∧ (ch ")" ∉ url).
Proof.
  intros (m & -> & Hm)%match_here_matches. rewrite image_pattern_items in Hm.
  inversion Hm as [|k0 re0 c0 m0 gs0 Hc0 Hm0|]; subst.
  inversion Hm0 as [|k1 re1 c1 m1 gs1 Hc1 Hm1|]; subst.
  inversion Hm1 as [| |min2 k2 re2 alt m2 gs2 Halt Hmin2 Hm2]; subst.
  inversion Hm2 as [|k3 re3 c3 m3 gs3 Hc3 Hm3|]; subst.
  inversion Hm3 as [|k4 re4 c4 m4 gs4 Hc4 Hm4|]; subst.
  inversion Hm4 as [| |min5 k5 re5 url m5 gs5 Hurl Hmin5 Hm5]; subst.
  inversion Hm5 as [|k6 re6 c6 m6 gs6 Hc6 Hm6|]; subst.
  inversion Hm6; subst.
  apply N.eqb_eq in Hc0 as ->, Hc1 as ->, Hc3 as ->, Hc4 as ->, Hc6 as ->.
  exists alt, url. repeat split.
  - cbn [app]. rewrite <- app_assoc. cbn [app]. by rewrite <- app_assoc.
  - by apply lit_all_not.
  - intros ->. simpl in Hmin5. lia.
  - by apply lit_all_not.
Qed.

(** A substitution whose replacement is part of what it replaces only
    deletes characters. *)
Lemma re_sub_sublist re repl :
  (∀ s gs rest, match_here re s = Some (gs, rest) →
                ∃ m, s = m ++ rest ∧ m ≠ [] ∧ repl gs `sublist_of` m) →
  ∀ s, re_sub re repl s `sublist_of` s.
Proof.
  intros Hpart s. remember (length s) as n eqn:Hn. revert s Hn.
  induction n as [n IH] using lt_wf_ind. intros s ->.
  destruct s as [|c s]; [done|].
  destruct (match_here re (c :: s)) as [[gs rest]|] eqn:Hm.
  - destruct (Hpart _ _ _ Hm) as (m & Heq & Hne & Hsub).
    assert (length rest < length (c :: s))%nat as Hlt.
    { rewrite Heq, length_app. destruct m; [done | simpl; lia]. }
    rewrite (re_sub_match _ _ _ _ _ Hm Hlt), Heq.
    apply sublist_app; [done|]. by apply (IH (length rest)).
  - rewrite re_sub_cons_none by done. apply sublist_skip.
    apply (IH (length s)); [simpl; lia | done].
Qed.

Lemma replace_from_sublist old n s : replace_from old [] n s `sublist_of` s.
Proof.
  revert n. induction s as [|c s IH]; intros n; [done|].
  cbn [replace_from]. destruct n as [|n]; [|apply sublist_cons, IH].
  destruct (startswith (c :: s) old); [apply sublist_cons, IH | apply sublist_skip, IH].
Qed.

Lemma clean_sublist s : clean_markdown_content s `sublist_of` s.
Proof.
  unfold clean_markdown_content.
  etrans; [apply replace_from_sublist|]. etrans; [apply replace_from_sublist|].
  etrans.
  - apply re_sub_sublist. intros t gs rest (alt & url & _ & -> & _)%image_match_shape.
    exists (py "![" ++ alt ++ py "](" ++ url ++ py ")").
    rewrite <- !app_assoc. split; [done|]. split; [done | apply sublist_nil_l].
  - apply re_sub_sublist. intros t gs rest (label & url & -> & -> & _)%link_match_shape.
    exists (py "[" ++ label ++ py "](" ++ url ++ py ")").
    rewrite <- !app_assoc. split; [done|]. split; [done|]. simpl.
    apply sublist_cons, sublist_inserts_r. done.
Qed.

Lemma lstrip_sublist s : lstrip s `sublist_of` s.
Proof.
  induction s as [|c s IH]; [done|]. simpl.
  destruct (isspace c); [by apply sublist_cons | done].
Qed.

Lemma rstrip_sublist s : rstrip s `sublist_of` s.
Proof.
  induction s as [|c s IH]; [done|]. simpl.
  destruct (rstrip s) as [|b r].
  - destruct (isspace c); [apply sublist_nil_l | apply sublist_skip, sublist_nil_l].
  - by apply sublist_skip.
Qed.

Lemma strip_sublist s : strip s `sublist_of` s.
Proof. unfold strip. etrans; [apply rstrip_sublist | apply lstrip_sublist]. Qed.

(** Deleting characters never makes more words. *)
Lemma word_starts_flag s : (word_starts false s ≤ word_starts true s ≤ S (word_starts false s))%nat.
Proof. destruct s as [|c s]; simpl; [lia|]. destruct (isspace c); simpl; lia. Qed.

Lemma word_starts_sublist s t b :
  s `sublist_of` t → (word_starts b s ≤ word_starts b t)%nat.
Proof.
  intros Hsub. revert b. induction Hsub as [|c s t _ IH|c s t _ IH]; intros b; [done|..].
  - simpl. specialize (IH (isspace c)). lia.
  - simpl. pose proof (IH true). pose proof (IH false).
    pose proof (word_starts_flag s). pose proof (word_starts_flag t).
    destruct b, (isspace c); simpl; lia.
Qed.

Lemma num_tokens_words s : num_tokens_from_string s = N.of_nat (word_starts true s).
Proof.
  unfold num_tokens_from_string, str_split_whitespace.
  rewrite split_words_length. simpl. f_equal. lia.
Qed.

Lemma num_tokens_sublist s t :
  s `sublist_of` t → num_tokens_from_string s ≤ num_tokens_from_string t.
Proof.
  intros Hsub. rewrite !num_tokens_words.
  pose proof (word_starts_sublist s t true Hsub). lia.
Qed.
End DeletionFacts.

Section SplitFacts.
Local Open Scope nat_scope.
Implicit Types (s sep r piece : str) (pieces : list str).

Lemma split_from_skip sep n s : split_from sep n s = split_from sep 0 (drop n s).
Proof.
  revert n. induction s as [|c s IH]; intros [|n]; try done.
  cbn [split_from drop]. apply IH.
Qed.

Lemma split_match sep r : sep ≠ [] → str_split (sep ++ r) sep = [] :: str_split r sep.
Proof.
  intros Hne. destruct sep as [|c sep]; [done|]. unfold str_split.
  cbn [app split_from].
  assert (startswith (c :: sep ++ r) (c :: sep) = true) as ->.
  { apply startswith_prefix. by exists r. }
  f_equal. rewrite split_from_skip. f_equal.
  replace (length (c :: sep) - 1) with (length sep) by (simpl; lia).
  by rewrite drop_app_length.
Qed.

Lemma split_no_match sep c s :
  startswith (c :: s) sep = false →
  str_split (c :: s) sep = cons_first c (str_split s sep).
Proof. intros H. unfold str_split. cbn [split_from]. by rewrite H. Qed.

Lemma join_cons_first sep c pieces :
  pieces ≠ [] → str_join sep (cons_first c pieces) = c :: str_join sep pieces.
Proof. destruct pieces as [|p [|q pieces]]; done. Qed.

Lemma join_cons sep piece pieces :
  pieces ≠ [] → str_join sep (piece :: pieces) = piece ++ sep ++ str_join sep pieces.
Proof. destruct pieces; done. Qed.

(** The pieces of a split: there is at least one, none contains the
    separator, the first is a prefix of the string, and joined by the
    separator they give the string back. *)
Lemma split_pieces sep s :
  sep ≠ [] →
  str_split s sep ≠ []
  ∧ str_join sep (str_split s sep) = s
  ∧ Forall (λ piece, contains piece sep = false) (str_split s sep)
  ∧ ∃ r, s = hd [] (str_split s sep) ++ r.
Proof.
  intros Hne. remember (length s) as n eqn:Hn. revert s Hn.
  induction n as [n IH] using lt_wf_ind. intros s ->.
  destruct (startswith s sep) eqn:Hs.
  - apply startswith_prefix in Hs as [r ->]. rewrite split_match by done.
    destruct (IH (length r)) with (s := r) as (Hr1 & Hr2 & Hr3 & _); [|done|].
    { rewrite length_app. destruct sep; [done | simpl; lia]. }
    split; [done|]. split; [by rewrite join_cons, Hr2|].
    split; [|by exists (sep ++ r)].
    constructor; [by destruct sep | done].
  - destruct s as [|c s].
    + repeat split; [done| |by exists []].
      constructor; [by destruct sep | done].
    + rewrite split_no_match by done.
      destruct (IH (length s)) with (s := s) as (Hr1 & Hr2 & Hr3 & r & Hr4); [simpl; lia|done|].
      destruct (str_split s sep) as [|piece pieces] eqn:Hsplit; [done|].
      cbn [cons_first hd] in *. split; [done|].
      split; [rewrite <- Hr2; by destruct pieces|].
      split; [|exists r; by rewrite Hr4 at 1].
      apply Forall_cons in Hr3 as [Hp Hps]. constructor; [|done].
      change (startswith (c :: piece) sep || contains piece sep = false).
      rewrite Hp, orb_false_r. apply not_true_iff_false.
      intros [q Hq]%startswith_prefix. apply not_true_iff_false in Hs. apply Hs.
      apply startswith_prefix. exists (q ++ r). rewrite Hr4 at 1.
      by rewrite app_comm_cons, Hq, <- app_assoc.
Qed.


(** After a text that ends in a blank line the last piece is empty, or one
    newline when the text ends in three. *)
Lemma split_blank_line_end s :
  [LF; LF] `suffix_of` s →
  ∃ front piece,
    str_split s [LF; LF] = front ++ [piece] ∧ front ≠ [] ∧ (piece = [] ∨ piece = [LF]).
Proof.
  remember (length s) as n eqn:Hn. revert s Hn.
  induction n as [n IH] using lt_wf_ind. intros s -> Hsuf.
  destruct (startswith s [LF; LF]) eqn:Hs.
  - apply startswith_prefix in Hs as [r ->]. rewrite split_match by done.
    cbn [app] in Hsuf.
    apply suffix_cons_inv in Hsuf as [[= <-]|Hsuf].
    { exists [[]], []. by repeat split; [|left]. }
    apply suffix_cons_inv in Hsuf as [[= <-]|Hsuf].
    { exists [[]], [LF]. by repeat split; [|right]. }
    destruct (IH (length r)) with (s := r) as (front & piece & -> & _ & Hp);
      [simpl; lia|done..|].
    exists ([] :: front), piece. by repeat split.
  - destruct s as [|c s]; [by apply suffix_nil_inv in Hsuf|].
    rewrite split_no_match by done.
    apply suffix_cons_inv in Hsuf as [Heq|Hsuf].
    { rewrite <- Heq in Hs. done. }
    destruct (IH (length s)) with (s := s) as (front & piece & -> & Hfront & Hp);
      [simpl; lia|done..|].
    destruct front as [|f front]; [done|].
    exists ((c :: f) :: front), piece. by repeat split.
Qed.
End SplitFacts.

Section NameFacts.
Implicit Types (s t : str) (i j : N).

Lemma endswith_app s suffix : endswith (s ++ suffix) suffix = true.
Proof.
  unfold endswith. rewrite rev_app_distr. apply startswith_prefix. eauto.
Qed.

Lemma py_inj a b : py a = py b → a = b.
Proof.
  unfold py. intros H.
  rewrite <- (string_of_list_ascii_of_string a), <- (string_of_list_ascii_of_string b).
  f_equal. revert H. generalize (list_ascii_of_string a) (list_ascii_of_string b).
  induction l as [|x l IH]; intros [|y l']; simpl; try done.
  intros [= Hxy Hl]. f_equal; [|by apply IH].
  by rewrite <- (ascii_N_embedding x), <- (ascii_N_embedding y), Hxy.
Qed.

Lemma str_of_int_inj i j : str_of_int i = str_of_int j → i = j.
Proof.
  unfold str_of_int. intros H%py_inj. apply DecimalN.Unsigned.to_uint_inj.
  assert (Some (N.to_uint i) = Some (N.to_uint j)) as [= ->]; [|done].
  by rewrite <- !NilEmpty.usu, H.
Qed.

Lemma str_of_int_digits i : forallb is_digit (str_of_int i) = true.
Proof.
  unfold str_of_int. generalize (N.to_uint i). intros d.
  induction d; simpl; done.
Qed.

Lemma digits_not_stripped s :
  forallb is_digit s = true → filter (λ c, c ∉ stripped_chars) s = s.
Proof.
  induction s as [|c s IH]; [done|]. simpl. intros [Hc Hs]%andb_true_iff.
  rewrite filter_cons_True, IH; [done..|].
  unfold is_digit in Hc. apply andb_true_iff in Hc as [H1%N.leb_le H2%N.leb_le].
  intros Hin%list_elem_of_In. vm_compute in Hin.
  repeat (destruct Hin as [<-|Hin]; [vm_compute in H1, H2; try (by apply H1); by apply H2|]).
  done.
Qed.

(** The name is the template with the stripped characters taken out of the
    title alone. *)
Lemma chunk_file_name_parts i t :
  chunk_file_name i t
  = py "chunk_" ++ str_of_int i ++ py "_"
    ++ filter (λ c, c ∉ stripped_chars) t ++ py ".json".
Proof.
  rewrite chunk_file_name_filter. unfold chunk_file_template.
  rewrite !filter_app, (digits_not_stripped (str_of_int i)) by apply str_of_int_digits.
  by vm_compute (filter _ (py _)).
Qed.

Lemma chunk_file_name_json i t : endswith (chunk_file_name i t) (py ".json") = true.
Proof.
  rewrite chunk_file_name_parts, !app_assoc. apply endswith_app.
Qed.

Lemma digits_prefix_inj (d1 d2 r1 r2 : str) c :
  forallb is_digit d1 = true → forallb is_digit d2 = true → is_digit c = false →
  d1 ++ c :: r1 = d2 ++ c :: r2 → d1 = d2.
Proof.
  revert d2. induction d1 as [|a d1 IH]; intros [|b d2]; simpl; try done.
  - intros _ [Hb _]%andb_true_iff Hc [= -> _]. congruence.
  - intros [Ha _]%andb_true_iff _ Hc [= -> _]. congruence.
  - intros [_ H1]%andb_true_iff [_ H2]%andb_true_iff Hc [= -> Heq].
    f_equal. by eapply IH.
Qed.

(** Two chunk counters never give the same file name. *)
Lemma chunk_file_name_inj i j t u :
  chunk_file_name i t = chunk_file_name j u → i = j.
Proof.
  rewrite !chunk_file_name_parts. intros Heq%app_inv_head.
  apply str_of_int_inj.
  eapply (digits_prefix_inj _ _ _ _ (ch "_")); [apply str_of_int_digits..|done|exact Heq].
Qed.
End NameFacts.

Section RunFacts.
Variable w : World.
Implicit Types (filename title chunk : str) (chunks filenames : list str) (st : state).

Lemma written_names_emit st evs :
  written_names (trace (emit st evs)) = written_names (trace st) ++ written_names evs.
Proof. apply omap_app. Qed.

Lemma written_chunks_emit st evs :
  written_chunks (trace (emit st evs)) = written_chunks (trace st) ++ written_chunks evs.
Proof. apply omap_app. Qed.

Lemma embedded_texts_emit st evs :
  embedded_texts (trace (emit st evs)) = embedded_texts (trace st) ++ embedded_texts evs.
Proof. apply omap_app. Qed.

Lemma names_ok_next st evs :
  written_names evs = [] → names_ok st → names_ok (emit (next_chunk st) evs).
Proof.
  intros Hevs [Hnd Hall]. unfold names_ok.
  rewrite written_names_emit, Hevs, app_nil_r. split; [done|].
  eapply Forall_impl; [exact Hall|]. intros n (i & t & Hi & ->).
  exists i, t. split; [simpl; lia | done].
Qed.

Lemma process_chunks_names filename title chunks st :
  names_ok st → names_ok (end_state (process_chunks w filename title chunks st)).
Proof.
  revert st. induction chunks as [|chunk rest IH]; intros st Hst; [done|].
  cbn [process_chunks]. destruct (8191 <? _); [by apply names_ok_next|].
  destruct (get_embeddings_vector w _ _) as [v|e]; [|by apply names_ok_next].
  destruct (json_dump w _ _) as [e|].
  { rewrite emit_emit. by apply names_ok_next. }
  apply IH. destruct Hst as [Hnd Hall]. unfold names_ok.
  rewrite !written_names_emit. cbn [written_names omap next_chunk trace].
  simpl. rewrite app_nil_r. split.
  - apply NoDup_app. split; [done|]. split; [|apply NoDup_singleton].
    intros n Hn. rewrite Forall_forall in Hall.
    destruct (Hall n Hn) as (i & t & Hi & ->).
    intros ->%list_elem_of_singleton%chunk_file_name_inj. lia.
  - apply Forall_app. split.
    + eapply Forall_impl; [exact Hall|]. intros n (i & t & Hi & ->).
      exists i, t. split; [lia | done].
    + apply Forall_singleton. eexists _, _. split; [|done]. lia.
Qed.

Lemma process_files_names filenames st :
  names_ok st → names_ok (final (process_files w filenames st)).
Proof.
  revert st. induction filenames as [|filename rest IH]; intros st Hst; [done|].
  cbn [process_files]. destruct (endswith_any filename suported_file_types); [|by apply IH].
  destruct (extract_text_from_file w _) as [[ps|]|e]; [|done..].
  pose proof (process_chunks_names filename (splitext filename).1 ps st Hst) as Hps.
  destruct (process_chunks w filename _ ps st) as [st'|st'|e st']; simpl in Hps;
    [by apply IH..|done].
Qed.

(** A block whose own text is within the ceiling passes the check. *)
Lemma normalized_tokens chunk :
  num_tokens_from_string (clean_markdown_content (strip chunk))
  ≤ num_tokens_from_string chunk.
Proof.
  apply num_tokens_sublist. etrans; [apply clean_sublist | apply strip_sublist].
Qed.

(** When the service answers every call and every block passes the check,
    the loop over the blocks completes and writes every block. *)
Lemma process_chunks_all filename title chunks st :
  (∀ i text, ∃ v, get_embeddings_vector w i text = Return v) →
  (∀ name d, json_dump w name d = None) →
  Forall (λ chunk, num_tokens_from_string (clean_markdown_content (strip chunk)) ≤ 8191)
    chunks →
  ∃ st',
    process_chunks w filename title chunks st = Completed st'
    ∧ chunk_index st' = chunk_index st + N.of_nat (length chunks)
    ∧ chunk_content <$> written_chunks (trace st')
      = (chunk_content <$> written_chunks (trace st))
        ++ ((λ chunk, clean_markdown_content (strip chunk)) <$> chunks)
    ∧ embedded_texts (trace st')
      = embedded_texts (trace st)
        ++ ((λ chunk, clean_markdown_content (strip chunk)) <$> chunks).
Proof.
  intros Hembed Hdump. revert st. induction chunks as [|chunk rest IH]; intros st Hfit.
  - exists st. rewrite !app_nil_r. repeat split; [|done..]. simpl. lia.
  - apply Forall_cons in Hfit as [Hc Hrest]. cbn [process_chunks].
    apply N.ltb_ge in Hc. rewrite Hc.
    destruct (Hembed (chunk_index st + 1) (clean_markdown_content (strip chunk)))
      as [v Hv].
    cbn [emit next_chunk chunk_index]. rewrite Hv, Hdump.
    edestruct IH as (st' & -> & Hidx & Hw & He); [exact Hrest|].
    exists st'. split; [done|]. cbn [chunk_index trace] in *.
    split; [rewrite Hidx; cbn [length]; rewrite Nat2N.inj_succ; simpl; lia|].
    rewrite !written_chunks_emit in Hw. rewrite !embedded_texts_emit in He.
    cbn [next_chunk trace] in Hw, He. rewrite Hw, He. simpl.
    rewrite !app_nil_r, !fmap_app, <- !app_assoc. done.
Qed.

Lemma all_blocks_cons filename rest :
  all_blocks w (filename :: rest)
  = (if is_supported filename then blocks_of w filename else []) ++ all_blocks w rest.
Proof. unfold all_blocks. cbn [List.filter]. by destruct (is_supported filename). Qed.

Lemma process_files_all filenames st :
  (∀ i text, ∃ v, get_embeddings_vector w i text = Return v) →
  (∀ name d, json_dump w name d = None) →
  (∀ filename, filename ∈ filenames → is_supported filename = true →
     ∃ ps, extract_text_from_file w (input_directory ++ filename) = Return (Some ps)) →
  Forall (λ chunk, num_tokens_from_string (clean_markdown_content (strip chunk)) ≤ 8191)
    (all_blocks w filenames) →
  ∃ st',
    process_files w filenames st = Finished st'
    ∧ chunk_index st' = chunk_index st + N.of_nat (length (all_blocks w filenames))
    ∧ chunk_content <$> written_chunks (trace st')
      = (chunk_content <$> written_chunks (trace st))
        ++ ((λ chunk, clean_markdown_content (strip chunk)) <$> all_blocks w filenames)
    ∧ embedded_texts (trace st')
      = embedded_texts (trace st)
        ++ ((λ chunk, clean_markdown_content (strip chunk)) <$> all_blocks w filenames).
Proof.
  intros Hembed Hdump. revert st.
  induction filenames as [|filename rest IH]; intros st Hex Hfit.
  - exists st. unfold all_blocks. simpl. rewrite !app_nil_r. repeat split; lia.
  - assert (∀ f, f ∈ rest → is_supported f = true →
              ∃ ps, extract_text_from_file w (input_directory ++ f) = Return (Some ps))
      as Hex' by (intros f Hf; apply Hex; by right).
    rewrite all_blocks_cons in Hfit |- *. cbn [process_files].
    fold (is_supported filename).
    destruct (is_supported filename) eqn:Hsup; [|by apply IH].
    apply Forall_app in Hfit as [Hfit1 Hfit2].
    destruct (Hex filename) as [ps Hps]; [by left|done|].
    unfold blocks_of in Hfit1 |- *. rewrite Hps in Hfit1 |- *.
    destruct (process_chunks_all filename (splitext filename).1 ps st Hembed Hdump Hfit1)
      as (st1 & -> & Hidx1 & Hw1 & He1).
    destruct (IH st1 Hex' Hfit2) as (st' & -> & Hidx & Hw & He).
    exists st'. split; [done|]. rewrite Hidx, Hidx1, Hw, Hw1, He, He1.
    rewrite !fmap_app, !length_app, <- !app_assoc. repeat split. lia.
Qed.

(** Files of other types play no part in a run. *)
End RunFacts.

Section MoreFacts.
Implicit Types (s t p suffix filename : str).

(** ** Suffixes *)




(** No name has two of the four suffixes. *)
Lemma endswith_docx_not_pdf s :
  endswith s (py ".docx") = true → endswith s (py ".pdf") = false.
Proof.
  unfold endswith. generalize (rev s) as r. intros r.
  change (rev (py ".docx")) with (ch "x" :: py "cod.").
  change (rev (py ".pdf")) with (ch "f" :: py "dp.").
  destruct r as [|c r]; [done|]. cbn [startswith].
  intros [Hc _]%andb_true_iff. apply N.eqb_eq in Hc as <-. done.
Qed.

Lemma endswith_csv_not_others s :
  endswith s (py ".csv") = true →
  endswith s (py ".pdf") = false ∧ endswith s (py ".docx") = false.
Proof.
  unfold endswith. generalize (rev s) as r. intros r.
  change (rev (py ".csv")) with (ch "v" :: py "sc.").
  change (rev (py ".docx")) with (ch "x" :: py "cod.").
  change (rev (py ".pdf")) with (ch "f" :: py "dp.").
  destruct r as [|c r]; [done|]. cbn [startswith].
  intros [Hc _]%andb_true_iff. apply N.eqb_eq in Hc as <-. done.
Qed.

Lemma endswith_xlsx_not_others s :
  endswith s (py ".xlsx") = true →
  endswith s (py ".pdf") = false ∧ endswith s (py ".docx") = false
  ∧ endswith s (py ".csv") = false.
Proof.
  unfold endswith. generalize (rev s) as r. intros r.
  change (rev (py ".xlsx")) with (ch "x" :: ch "s" :: py "lx.").
  change (rev (py ".csv")) with (ch "v" :: py "sc.").
  change (rev (py ".docx")) with (ch "x" :: ch "c" :: py "od.").
  change (rev (py ".pdf")) with (ch "f" :: py "dp.").
  destruct r as [|c r]; [done|]. cbn [startswith].
  intros [Hc Hr]%andb_true_iff. apply N.eqb_eq in Hc as <-.
  destruct r as [|d r]; [done|]. cbn [startswith] in Hr |- *.
  apply andb_true_iff in Hr as [Hd _]. apply N.eqb_eq in Hd as <-. done.
Qed.

(** ** Concatenations *)


Lemma concat_not_elem (c : N) (l : list str) :
  Forall (λ t, c ∉ t) l → c ∉ concat l.
Proof.
  induction 1 as [|t l Ht _ IH]; [apply not_elem_of_nil|].
  simpl. rewrite not_elem_of_app. done.
Qed.

Lemma join_not_elem (c : N) sep (l : list str) :
  c ∉ sep → Forall (λ t, c ∉ t) l → c ∉ str_join sep l.
Proof.
  intros Hsep. induction 1 as [|t l Ht Hl IH]; [apply not_elem_of_nil|].
  destruct l as [|u l]; [done|]. rewrite join_cons by done.
  rewrite !not_elem_of_app. done.
Qed.

(** ** Words across whitespace *)

Lemma word_starts_app b s t :
  word_starts b (s ++ t)
  = (word_starts b s
     + word_starts (match last s with Some c => isspace c | None => b end) t)%nat.
Proof.
  revert b. induction s as [|c s IH]; intros b; [done|].
  cbn [app word_starts]. rewrite IH.
  destruct s as [|d s]; [simpl; lia|]. rewrite last_cons_cons.
  destruct (last (d :: s)) eqn:Hlast; [lia|]. by apply last_None in Hlast.
Qed.

Lemma num_tokens_app_space s c t :
  isspace c = true →
  num_tokens_from_string (s ++ c :: t)
  = num_tokens_from_string s + num_tokens_from_string t.
Proof.
  intros Hc. rewrite !num_tokens_words, word_starts_app. cbn [word_starts].
  rewrite Hc, andb_false_r. simpl. lia.
Qed.


(** ** The extension of a file name *)

Lemma rfind_none c s : c ∉ s → rfind c s = None.
Proof.
  induction s as [|a s IH]; [done|]. intros [Ha Hs]%not_elem_of_cons.
  simpl. rewrite IH by done. apply not_eq_sym in Ha. by apply N.eqb_neq in Ha as ->.
Qed.

Lemma rfind_last c a e : c ∉ e → rfind c (a ++ c :: e) = Some (length a).
Proof.
  intros He. induction a as [|x a IH]; simpl.
  - by rewrite rfind_none, N.eqb_refl.
  - by rewrite IH.
Qed.

Lemma splitext_extension base e :
  ch "/" ∉ base → ch "/" ∉ e → ch "." ∉ e →
  splitext (base ++ ch "." :: e)
  = if existsb (λ c, negb (c =? ch ".")) base
    then (base, ch "." :: e)
    else (base ++ ch "." :: e, []).
Proof.
  intros Hb He Hdot. unfold splitext. rewrite rfind_last by done.
  rewrite rfind_none.
  - rewrite Nat.sub_0_r. cbn [Nat.leb skipn andb].
    by rewrite drop_0, !take_app_length, drop_app_length.
  - rewrite not_elem_of_app, not_elem_of_cons. done.
Qed.
End MoreFacts.

Section CellFacts.
Variable w : World.
Implicit Types (filename file_path title chunk content : str) (chunks : list str) (st : state).

(** ** What extract_text_from_file returns *)

Lemma extract_returns file_path blocks :
  extract_text_from_file w file_path = Return (Some blocks) →
  ∃ content,
    read_content w file_path = Return content
    ∧ content ≠ [] ∧ blocks = str_split content [LF; LF].
Proof.
  unfold extract_text_from_file. destruct (path_exists w file_path); [|done].
  cbn [negb]. destruct (read_content w file_path) as [content|e]; [|done].
  destruct content as [|c content]; [done|]. intros [= <-]. by exists (c :: content).
Qed.

Lemma extract_of_content file_path content :
  path_exists w file_path = true → read_content w file_path = Return content →
  content ≠ [] →
  extract_text_from_file w file_path = Return (Some (str_split content [LF; LF])).
Proof.
  intros Hex Hr Hne. unfold extract_text_from_file. rewrite Hex, Hr.
  by destruct content.
Qed.


(** ** The counting cell and the chunking cell read the same files *)


(** ** The loop over the blocks *)

Lemma process_chunks_no_break filename title chunks st st' :
  Forall (λ chunk, num_tokens_from_string (clean_markdown_content (strip chunk)) ≤ 8191)
    chunks →
  process_chunks w filename title chunks st ≠ Broke st'.
Proof.
  revert st. induction chunks as [|chunk rest IH]; intros st Hfit; [done|].
  apply Forall_cons in Hfit as [Hc Hrest]. cbn [process_chunks].
  apply N.ltb_ge in Hc. rewrite Hc.
  destruct (get_embeddings_vector w _ _); [|done].
  destruct (json_dump w _ _); [done | by apply IH].
Qed.

(** Every text that the service embedded is written, in the same order;
    only the text of a pass that an exception ended has no chunk. *)
Lemma process_chunks_embedded filename title chunks st :
  chunk_content <$> written_chunks (trace st) = embedded_texts (trace st) →
  match process_chunks w filename title chunks st with
  | Completed st' | Broke st' =>
      chunk_content <$> written_chunks (trace st') = embedded_texts (trace st')
  | Raised e st' =>
      ∃ text,
        embedded_texts (trace st')
        = (chunk_content <$> written_chunks (trace st')) ++ [text]
        ∧ ((∃ i, get_embeddings_vector w i text = Raise e)
           ∨ (∃ name d, chunk_content d = text ∧ json_dump w name d = Some e))
  end.
Proof.
  revert st. induction chunks as [|chunk rest IH]; intros st Hst; [done|].
  cbn [process_chunks]. destruct (8191 <? _).
  { rewrite written_chunks_emit, embedded_texts_emit. simpl. by rewrite !app_nil_r. }
  destruct (get_embeddings_vector w _ _) as [v|e] eqn:Hv.
  - destruct (json_dump w _ _) as [e|] eqn:Hd.
    + exists (clean_markdown_content (strip chunk)).
      rewrite !written_chunks_emit, !embedded_texts_emit. simpl.
      rewrite !app_nil_r, Hst. split; [done|]. right.
      eexists _, _. split; [|exact Hd]. done.
    + apply IH. rewrite !written_chunks_emit, !embedded_texts_emit. simpl.
      rewrite !app_nil_r, fmap_app, Hst. done.
  - exists (clean_markdown_content (strip chunk)).
    rewrite written_chunks_emit, embedded_texts_emit. simpl.
    rewrite !app_nil_r, Hst. split; [done|]. left. by eexists.
Qed.

Lemma process_files_embedded filenames st :
  chunk_content <$> written_chunks (trace st) = embedded_texts (trace st) →
  match process_files w filenames st with
  | Finished st' =>
      chunk_content <$> written_chunks (trace st') = embedded_texts (trace st')
  | Aborted e st' =>
      (chunk_content <$> written_chunks (trace st') = embedded_texts (trace st')
       ∧ ∃ filename,
           filename ∈ filenames
           ∧ is_supported filename = true
           ∧ (extract_text_from_file w (input_directory ++ filename) = Raise e
              ∨ (extract_text_from_file w (input_directory ++ filename) = Return None
                 ∧ e = TypeError)))
      ∨ (∃ text,
           embedded_texts (trace st')
           = (chunk_content <$> written_chunks (trace st')) ++ [text]
           ∧ ((∃ i, get_embeddings_vector w i text = Raise e)
              ∨ (∃ name d, chunk_content d = text ∧ json_dump w name d = Some e)))
  end.
Proof.
  revert st. induction filenames as [|filename rest IH]; intros st Hst; [done|].
  assert (∀ r,
            match r with
            | Finished st' =>
                chunk_content <$> written_chunks (trace st') = embedded_texts (trace st')
            | Aborted e st' =>
                (chunk_content <$> written_chunks (trace st') = embedded_texts (trace st')
                 ∧ ∃ filename,
                     filename ∈ rest
                     ∧ is_supported filename = true
                     ∧ (extract_text_from_file w (input_directory ++ filename) = Raise e
                        ∨ (extract_text_from_file w (input_directory ++ filename)
                           = Return None ∧ e = TypeError)))
                ∨ (∃ text,
                     embedded_texts (trace st')
                     = (chunk_content <$> written_chunks (trace st')) ++ [text]
                     ∧ ((∃ i, get_embeddings_vector w i text = Raise e)
                        ∨ (∃ name d,
                             chunk_content d = text ∧ json_dump w name d = Some e)))
            end →
            match r with
            | Finished st' =>
                chunk_content <$> written_chunks (trace st') = embedded_texts (trace st')
            | Aborted e st' =>
                (chunk_content <$> written_chunks (trace st') = embedded_texts (trace st')
                 ∧ ∃ f,
                     f ∈ filename :: rest
                     ∧ is_supported f = true
                     ∧ (extract_text_from_file w (input_directory ++ f) = Raise e
                        ∨ (extract_text_from_file w (input_directory ++ f)
                           = Return None ∧ e = TypeError)))
                ∨ (∃ text,
                     embedded_texts (trace st')
                     = (chunk_content <$> written_chunks (trace st')) ++ [text]
                     ∧ ((∃ i, get_embeddings_vector w i text = Raise e)
                        ∨ (∃ name d,
                             chunk_content d = text ∧ json_dump w name d = Some e)))
            end) as Hrest.
  { intros [st'|e st']; [done|]. intros [(Heq & f & Hf & H)|H]; [left|by right].
    split; [done|]. exists f. split; [by right | done]. }
  cbn [process_files]. fold (is_supported filename).
  destruct (is_supported filename) eqn:Hsup; [|by apply Hrest, IH].
  destruct (extract_text_from_file w _) as [[ps|]|e] eqn:Hex.
  - pose proof (process_chunks_embedded filename (splitext filename).1 ps st Hst) as Hps.
    destruct (process_chunks w filename _ ps st) as [st'|st'|e st'];
      [by apply Hrest, IH..|by right].
  - left. split; [done|]. exists filename. split; [left|]. split; [done|]. by right.
  - left. split; [done|]. exists filename. split; [left|]. split; [done|]. by left.
Qed.
End CellFacts.

Section TokenFacts.
Implicit Types (s t : str) (b : bool).

(** ** Words and the ends of a text *)

Lemma word_starts_lstrip s : word_starts true (lstrip s) = word_starts true s.
Proof.
  induction s as [|c s IH]; [done|]. cbn [lstrip word_starts].
  destruct (isspace c) eqn:Hc; [|by cbn [word_starts]; rewrite Hc]. by rewrite IH.
Qed.

Lemma word_starts_rstrip b s : word_starts b (rstrip s) = word_starts b s.
Proof.
  revert b. induction s as [|c s IH]; intros b; [done|]. cbn [rstrip].
  destruct (rstrip s) as [|d r] eqn:Hr.
  - destruct (isspace c) eqn:Hc; cbn [word_starts]; rewrite ?Hc, <- (IH _);
      cbn [word_starts]; [by rewrite andb_false_r | done].
  - cbn [word_starts]. by rewrite <- (IH (isspace c)).
Qed.

Lemma num_tokens_strip s : num_tokens_from_string (strip s) = num_tokens_from_string s.
Proof.
  rewrite !num_tokens_words. unfold strip.
  by rewrite word_starts_rstrip, word_starts_lstrip.
Qed.

(** Two texts put together have the words of both, but for the word that
    the end of the first and the start of the second may form. *)
Lemma num_tokens_app s t :
  num_tokens_from_string (s ++ t)
  ≤ num_tokens_from_string s + num_tokens_from_string t
  ≤ num_tokens_from_string (s ++ t) + 1.
Proof.
  rewrite !num_tokens_words, word_starts_app.
  pose proof (word_starts_flag t) as Ht.
  destruct (match last s with Some c => isspace c | None => true end); lia.
Qed.

Lemma num_tokens_concat (l : list str) :
  num_tokens_from_string (concat l) ≤ sum_tokens l.
Proof.
  induction l as [|t l IH]; [done|]. cbn [concat sum_tokens fold_right].
  fold (sum_tokens l). pose proof (num_tokens_app t (concat l)). lia.
Qed.



End TokenFacts.

Section ExtractFacts.
Variable w : World.
Implicit Types (file_path filename content : str) (blocks : list str).

(** ** One block, or a last block without text *)

Lemma extract_one_block file_path content :
  path_exists w file_path = true →
  read_content w file_path = Return content →
  content ≠ [] → (LF ∉ content) →
  extract_text_from_file w file_path = Return (Some [content]).
Proof.
  intros Hex Hr Hne Hlf. rewrite (extract_of_content w file_path content) by done.
  rewrite split_absent; [done|].
  apply (contains_absent_char _ _ LF); [in_literal | done].
Qed.

Lemma read_content_docx file_path paragraphs :
  endswith file_path (py ".docx") = true →
  docx_paragraphs w file_path = Return paragraphs →
  read_content w file_path = Return (concat paragraphs).
Proof.
  intros Hs Hp. unfold read_content.
  by rewrite (endswith_docx_not_pdf _ Hs), Hs, Hp.
Qed.

Lemma read_content_csv file_path rows :
  endswith file_path (py ".csv") = true →
  csv_rows w file_path = Return rows →
  read_content w file_path = Return (concat (List.map (str_join (py " ")) rows)).
Proof.
  intros Hs Hp. unfold read_content.
  destruct (endswith_csv_not_others _ Hs) as [-> ->]. by rewrite Hs, Hp.
Qed.

Lemma read_content_xlsx file_path sheets :
  endswith file_path (py ".xlsx") = true →
  xlsx_sheets w file_path = Return sheets →
  read_content w file_path
  = Return (concat (List.map (λ t, t ++ [LF; LF]) sheets)).
Proof.
  intros Hs Hp. unfold read_content.
  destruct (endswith_xlsx_not_others _ Hs) as (-> & -> & ->). by rewrite Hs, Hp.
Qed.

Lemma sheets_end_blank (sheets : list str) :
  sheets ≠ [] →
  [LF; LF] `suffix_of` concat (List.map (λ t, t ++ [LF; LF]) sheets).
Proof.
  destruct sheets as [|t sheets _] using rev_ind; [done|]. intros _.
  rewrite map_app, concat_app. cbn [List.map concat]. rewrite app_nil_r.
  exists (concat (List.map (λ t, t ++ [LF; LF]) sheets) ++ t).
  by rewrite <- !app_assoc.
Qed.
End ExtractFacts.

Section UploadFacts.
Variable s : Store.

Lemma upload_files_all (filenames : list str) :
  (∀ filename, filename ∈ filenames → endswith filename (py ".json") = true) →
  (∀ filename, filename ∈ filenames →
     is_Some (json_load s (path_join output_directory filename))) →
  (∀ document, is_Some (upload_documents s document)) →
  ∃ events,
    upload_files s filenames = (events, UploadDone)
    ∧ Forall2 (λ filename document,
                 json_load s (path_join output_directory filename) = Some document)
        filenames (uploaded_documents events).
Proof.
  intros Hjson Hload Hup. induction filenames as [|filename rest IH].
  { exists []. split; [done | constructor]. }
  destruct IH as (events & Hrest & Hall).
  { intros f Hf. apply Hjson. by right. }
  { intros f Hf. apply Hload. by right. }
  cbn [upload_files]. rewrite Hjson by left.
  destruct (Hload filename) as [document Hd]; [left|]. rewrite Hd.
  destruct (Hup document) as [succeeded ->]. rewrite Hrest.
  eexists. split; [done|]. by constructor.
Qed.
End UploadFacts.

(* ===================================================================== *)
(** * Further properties of the notebook *)
(* ===================================================================== *)

(** ** The normalizer *)

(** X1. [clean_markdown_content] only deletes characters: its result is a
    subsequence of its argument, so it is never longer, and it has no
    newline. *)
Theorem X1_clean_only_deletes (content : str) :
  clean_markdown_content content `sublist_of` content
  ∧ (length (clean_markdown_content content) ≤ length content)%nat
  ∧ (LF ∉ clean_markdown_content content).
Proof.
  split; [apply clean_sublist|].
  split; [apply sublist_length, clean_sublist | apply clean_no_newline].
Qed.

(** X2. Where the link substitution rewrites, there is a link: an opening
    bracket, a label that is not empty and has no opening bracket, a
    closing bracket and an opening parenthesis, a target that is not empty
    and has no closing parenthesis, and a closing parenthesis. The label
    takes the place of the link, and the substitution goes on after it. *)
Theorem X2_link_rewrite (s rest : str) (gs : list str) :
  match_here link_pattern s = Some (gs, rest) →
  ∃ label url,
    s = py "[" ++ label ++ py "](" ++ url ++ py ")" ++ rest
    ∧ label ≠ [] ∧ (ch "[" ∉ label) ∧ url ≠ [] ∧ (ch ")" ∉ url)
    ∧ re_sub link_pattern (λ gs, nth 0 gs []) s
      = label ++ re_sub link_pattern (λ gs, nth 0 gs []) rest.
Proof.
  intros Hm. destruct (link_match_shape s gs rest Hm)
    as (label & url & -> & Hs & Hlabel & Hopen & Hurl & Hclose).
  exists label, url. repeat split; try done.
  rewrite (re_sub_match _ _ _ _ _ Hm); [done|]. rewrite Hs.
  simpl. rewrite !length_app. simpl. rewrite !length_app. simpl. lia.
Qed.

Lemma X2_witness :
  ∃ label url,
    py "[a](b) c" = py "[" ++ label ++ py "](" ++ url ++ py ")" ++ py " c"
    ∧ label ≠ [] ∧ (ch "[" ∉ label) ∧ url ≠ [] ∧ (ch ")" ∉ url)
    ∧ re_sub link_pattern (λ gs, nth 0 gs []) (py "[a](b) c")
      = label ++ re_sub link_pattern (λ gs, nth 0 gs []) (py " c").
Proof.
  apply (X2_link_rewrite (py "[a](b) c") (py " c") [py "a"; py "b"]).
  vm_compute. reflexivity.
Defined.

(** X3. Where the image substitution rewrites, there is an image: an
    exclamation mark, a description without opening bracket between
    brackets, and a target that is not empty and has no closing
    parenthesis between parentheses. Nothing takes its place. *)
Theorem X3_image_rewrite (s rest : str) (gs : list str) :
  match_here image_pattern s = Some (gs, rest) →
  ∃ alt url,
    s = py "![" ++ alt ++ py "](" ++ url ++ py ")" ++ rest
    ∧ (ch "[" ∉ alt) ∧ url ≠ [] ∧ (ch ")" ∉ url)
    ∧ re_sub image_pattern (λ _, []) s = re_sub image_pattern (λ _, []) rest.
Proof.
  intros Hm. destruct (image_match_shape s gs rest Hm)
    as (alt & url & -> & Hs & Hopen & Hurl & Hclose).
  exists alt, url. repeat split; try done.
  rewrite (re_sub_match _ _ _ _ _ Hm); [done|]. rewrite Hs.
  simpl. rewrite !length_app. simpl. rewrite !length_app. simpl. lia.
Qed.

Lemma X3_witness :
  ∃ alt url,
    py "![](b) c" = py "![" ++ alt ++ py "](" ++ url ++ py ")" ++ py " c"
    ∧ (ch "[" ∉ alt) ∧ url ≠ [] ∧ (ch ")" ∉ url)
    ∧ re_sub image_pattern (λ _, []) (py "![](b) c")
      = re_sub image_pattern (λ _, []) (py " c").
Proof.
  apply (X3_image_rewrite (py "![](b) c") (py " c") [[]; py "b"]).
  vm_compute. reflexivity.
Defined.

(** X4. On a text made of plain stretches, links and images, whose
    labels, descriptions and targets have no bracket, parenthesis,
    exclamation mark, asterisk or newline, [clean_markdown_content] keeps
    the plain stretches, puts its label for every link, removes every
    image without description, and leaves an exclamation mark and the
    description for every image with one. *)
Theorem X4_clean_markdown_document (doc : list segment) :
  forallb segment_ok doc = true →
  clean_markdown_content (concat (List.map markdown doc))
  = concat (List.map normalized doc).
Proof.
  intros Hdoc. unfold clean_markdown_content. rewrite link_pass, image_pass by done.
  rewrite (replace_absent _ (py "**")).
  - apply replace_absent, contains_single, normalized_chars; [done|in_literal|done].
  - apply (contains_absent_char _ _ (ch "*")); [in_literal|].
    apply normalized_chars; [done|in_literal|done].
Qed.

Lemma X4_witness :
  clean_markdown_content (concat (List.map markdown sample_markdown))
  = concat (List.map normalized sample_markdown).
Proof. apply (X4_clean_markdown_document sample_markdown). vm_compute. reflexivity. Defined.

(** ** The word counter *)

(** X5. Stripping a block does not change its word count, and
    normalizing it does not raise it. *)
Theorem X5_normalizing_never_adds_tokens (chunk : str) :
  num_tokens_from_string (strip chunk) = num_tokens_from_string chunk
  ∧ num_tokens_from_string (clean_markdown_content (strip chunk))
    ≤ num_tokens_from_string chunk.
Proof. split; [apply num_tokens_strip | apply normalized_tokens]. Qed.

(** X6. When no block of a file has more than 8191 words, the loop over
    its blocks does not stop at the overflow check. *)
Theorem X6_no_overflow_within_ceiling (w : World) (filename title : str)
    (chunks : list str) (st : state) :
  Forall (λ chunk, num_tokens_from_string chunk ≤ 8191) chunks →
  ∀ st', process_chunks w filename title chunks st ≠ Broke st'.
Proof.
  intros Hfit st'. apply process_chunks_no_break.
  eapply Forall_impl; [exact Hfit|]. intros chunk Hc. cbv beta in *.
  pose proof (normalized_tokens chunk). lia.
Qed.

Lemma X6_witness :
  Forall (λ chunk, num_tokens_from_string chunk ≤ 8191) [py "Hello world"]
  ∧ ∀ st', process_chunks one_document (py "b.pdf") (py "b") [py "Hello world"] initial
           ≠ Broke st'.
Proof.
  assert (Forall (λ chunk, num_tokens_from_string chunk ≤ 8191) [py "Hello world"])
    as Hfit by (repeat constructor; vm_compute; discriminate).
  split; [exact Hfit|].
  exact (X6_no_overflow_within_ceiling one_document (py "b.pdf") (py "b")
           [py "Hello world"] initial Hfit).
Defined.

(** X7. The word count of two texts with a whitespace character between
    them is the sum of their word counts. Without one, it is that sum or
    one less: the end of the first text and the start of the second may
    form one word. *)
Theorem X7_tokens_of_concatenation (s t : str) (c : N) :
  isspace c = true →
  num_tokens_from_string (s ++ c :: t)
  = num_tokens_from_string s + num_tokens_from_string t
  ∧ num_tokens_from_string (s ++ t)
    ≤ num_tokens_from_string s + num_tokens_from_string t
    ≤ num_tokens_from_string (s ++ t) + 1.
Proof. intros Hc. split; [by apply num_tokens_app_space | apply num_tokens_app]. Qed.

Lemma X7_witness :
  num_tokens_from_string (py "a b" ++ LF :: py "c")
  = num_tokens_from_string (py "a b") + num_tokens_from_string (py "c")
  ∧ num_tokens_from_string (py "a b" ++ py "c")
    ≤ num_tokens_from_string (py "a b") + num_tokens_from_string (py "c")
    ≤ num_tokens_from_string (py "a b" ++ py "c") + 1.
Proof. apply (X7_tokens_of_concatenation (py "a b") (py "c") LF). reflexivity. Defined.

(** ** The cell that counts the tokens of the files *)





(** X10. The counting cell does not skip a file of another type: it reads
    nothing, reports 0 tokens for it and goes on. *)
Theorem X10_other_types_counted_as_zero (w : World) (filename : str)
    (rest : list str) :
  is_supported filename = false →
  count_files w (filename :: rest)
  = ((py "File " ++ filename ++ py " has 0 tokens.") :: (count_files w rest).1,
     (count_files w rest).2).
Proof.
  unfold is_supported, endswith_any, suported_file_types. cbn [existsb].
  rewrite !orb_false_iff. intros (Hpdf & Hdocx & Hcsv & Hxlsx & _).
  cbn [count_files]. unfold count_content. rewrite Hpdf, Hdocx, Hcsv, Hxlsx.
  by destruct (count_files w rest).
Qed.

Lemma X10_witness :
  count_files overflow_document [py "notes.txt"]
  = ((py "File " ++ py "notes.txt" ++ py " has 0 tokens.")
       :: (count_files overflow_document []).1,
     (count_files overflow_document []).2).
Proof.
  apply (X10_other_types_counted_as_zero overflow_document (py "notes.txt") []).
  vm_compute. reflexivity.
Defined.



(** ** The blocks of a file *)

(** X12. When [extract_text_from_file] returns a list of blocks, the list
    is not empty, no block has a blank line, and the blocks joined by
    blank lines are the text that was read, which is not empty. *)
Theorem X12_blocks_of_a_file (w : World) (file_path : str) (blocks : list str) :
  extract_text_from_file w file_path = Return (Some blocks) →
  blocks ≠ []
  ∧ Forall (λ block, contains block [LF; LF] = false) blocks
  ∧ ∃ content,
      read_content w file_path = Return content
      ∧ content ≠ []
      ∧ str_join [LF; LF] blocks = content.
Proof.
  intros (content & Hread & Hne & ->)%extract_returns.
  destruct (split_pieces [LF; LF] content) as (Hsome & Hjoin & Hnone & _); [done|].
  split; [done|]. split; [done|]. by exists content.
Qed.

Lemma X12_witness :
  [py "One"; py "Two"] ≠ []
  ∧ Forall (λ block, contains block [LF; LF] = false) [py "One"; py "Two"]
  ∧ ∃ content,
      read_content refused_call (in_dir (py "c.pdf")) = Return content
      ∧ content ≠ []
      ∧ str_join [LF; LF] [py "One"; py "Two"] = content.
Proof.
  apply (X12_blocks_of_a_file refused_call (in_dir (py "c.pdf")) [py "One"; py "Two"]).
  vm_compute. reflexivity.
Defined.

(** X13. A document whose paragraphs have no newline is one block, the
    paragraphs put together without anything between them. *)
Theorem X13_document_is_one_block (w : World) (file_path : str)
    (paragraphs : list str) :
  endswith file_path (py ".docx") = true →
  path_exists w file_path = true →
  docx_paragraphs w file_path = Return paragraphs →
  Forall (λ t, LF ∉ t) paragraphs →
  concat paragraphs ≠ [] →
  extract_text_from_file w file_path = Return (Some [concat paragraphs]).
Proof.
  intros Hs Hex Hp Hlf Hne. apply extract_one_block; [done| |done|].
  - by apply read_content_docx.
  - by apply concat_not_elem.
Qed.

Lemma X13_witness :
  extract_text_from_file notes_document (in_dir (py "n.docx"))
  = Return (Some [concat [py "One "; py "two"]]).
Proof.
  apply (X13_document_is_one_block notes_document (in_dir (py "n.docx"))
           [py "One "; py "two"]); try (vm_compute; reflexivity).
  - repeat first [apply Forall_nil_2 | apply Forall_cons_2]; not_in_literal.
  - vm_compute. discriminate.
Defined.

(** X14. A table whose cells have no newline is one block: the cells of
    a row with a space between them, the rows without anything between
    them. *)
Theorem X14_table_is_one_block (w : World) (file_path : str)
    (rows : list (list str)) :
  endswith file_path (py ".csv") = true →
  path_exists w file_path = true →
  csv_rows w file_path = Return rows →
  Forall (Forall (λ t, LF ∉ t)) rows →
  concat (List.map (str_join (py " ")) rows) ≠ [] →
  extract_text_from_file w file_path
  = Return (Some [concat (List.map (str_join (py " ")) rows)]).
Proof.
  intros Hs Hex Hp Hlf Hne. apply extract_one_block; [done| |done|].
  - by apply read_content_csv.
  - apply concat_not_elem, Forall_forall. intros t (row & -> & Hrow)%list_elem_of_fmap.
    apply join_not_elem; [not_in_literal|]. by eapply Forall_forall in Hlf.
Qed.

Lemma X14_witness :
  extract_text_from_file table (in_dir (py "t.csv"))
  = Return (Some [concat (List.map (str_join (py " ")) [[py "a"; py "b c"]; [py "d"]])]).
Proof.
  apply (X14_table_is_one_block table (in_dir (py "t.csv"))
           [[py "a"; py "b c"]; [py "d"]]); try (vm_compute; reflexivity).
  - repeat first [apply Forall_nil_2 | apply Forall_cons_2]; not_in_literal.
  - vm_compute. discriminate.
Defined.

(** X15. A workbook gives at least two blocks, and the last one is empty
    once stripped: the blank line after the last sheet ends the text. *)
Theorem X15_workbook_last_block_empty (w : World) (file_path : str)
    (sheets : list str) :
  endswith file_path (py ".xlsx") = true →
  path_exists w file_path = true →
  xlsx_sheets w file_path = Return sheets →
  sheets ≠ [] →
  ∃ front block,
    extract_text_from_file w file_path = Return (Some (front ++ [block]))
    ∧ front ≠ []
    ∧ clean_markdown_content (strip block) = [].
Proof.
  intros Hs Hex Hp Hne.
  pose proof (sheets_end_blank sheets Hne) as Hsuf.
  destruct (split_blank_line_end _ Hsuf) as (front & block & Hsplit & Hfront & Hblock).
  exists front, block. split; [|split; [done | by destruct Hblock as [-> | ->]]].
  rewrite <- Hsplit. apply extract_of_content; [done | by apply read_content_xlsx |].
  intros Hnil. rewrite Hnil in Hsuf. by apply suffix_nil_inv in Hsuf.
Qed.

Lemma X15_witness :
  ∃ front block,
    extract_text_from_file workbook (in_dir (py "t.xlsx"))
    = Return (Some (front ++ [block]))
    ∧ front ≠ []
    ∧ clean_markdown_content (strip block) = [].
Proof.
  apply (X15_workbook_last_block_empty workbook (in_dir (py "t.xlsx"))
           [py "a b"; py "c"]); try (vm_compute; reflexivity).
  discriminate.
Defined.

(** ** The files of the staging directory *)

(** X16. No two chunks of a run are written under the same name, and
    every name ends in [.json]. *)
Theorem X16_staging_names_distinct (w : World) :
  NoDup (written_names (trace (final (ingest w))))
  ∧ Forall (λ name, endswith name (py ".json") = true)
      (written_names (trace (final (ingest w)))).
Proof.
  destruct (process_files_names w (listdir w) initial) as [Hnd Hall].
  { split; [apply NoDup_nil_2 | apply Forall_nil_2]. }
  split; [done|]. eapply Forall_impl; [exact Hall|].
  intros name (i & t & _ & ->). apply chunk_file_name_json.
Qed.

(** X17. The upload cell takes every file that the chunking cell wrote:
    when the staging directory lists only names that the run wrote, every
    listed file loads and the service answers every call, the cell ends
    without exception and has sent the document of every listed file, in
    the order of the listing. *)
Theorem X17_upload_takes_every_written_file (w : World) (s : Store) :
  (∀ filename, filename ∈ listdir_chunks s →
     filename ∈ written_names (trace (final (ingest w)))) →
  (∀ filename, filename ∈ listdir_chunks s →
     is_Some (json_load s (path_join output_directory filename))) →
  (∀ document, is_Some (upload_documents s document)) →
  ∃ events,
    upload_files s (listdir_chunks s) = (events, UploadDone)
    ∧ Forall2 (λ filename document,
                 json_load s (path_join output_directory filename) = Some document)
        (listdir_chunks s) (uploaded_documents events).
Proof.
  intros Hwritten Hload Hup. apply upload_files_all; [|done..].
  intros filename Hin%Hwritten.
  destruct (process_files_names w (listdir w) initial) as [_ Hall].
  { split; [apply NoDup_nil_2 | apply Forall_nil_2]. }
  rewrite Forall_forall in Hall.
  destruct (Hall filename Hin) as (i & t & _ & ->). apply chunk_file_name_json.
Qed.

Lemma X17_witness :
  ∃ events,
    upload_files sample_store (listdir_chunks sample_store) = (events, UploadDone)
    ∧ Forall2 (λ filename document,
                 json_load sample_store (path_join output_directory filename)
                 = Some document)
        (listdir_chunks sample_store) (uploaded_documents events).
Proof.
  apply (X17_upload_takes_every_written_file one_document sample_store).
  - intros filename ->%list_elem_of_singleton. vm_compute. apply list_elem_of_here.
  - intros filename ->%list_elem_of_singleton. eexists. vm_compute. reflexivity.
  - intros document. eexists. reflexivity.
Defined.

(** X18. Every chunk that a run writes belongs to a supported file of the
    input directory and to one pass of the loop: its page title is the
    name of the file without extension, the number of the pass is in its
    file name, its id is the identifier drawn in that pass, and its vector
    is what the service answered in that pass for the stored content. *)
Theorem X18_written_chunk_integrity (w : World) (name : str) (d : chunk_data) :
  WriteFile name d ∈ trace (final (ingest w)) →
  ∃ filename i,
    filename ∈ listdir w
    ∧ is_supported filename = true
    ∧ i ≤ chunk_index (final (ingest w))
    ∧ page_title d = (splitext filename).1
    ∧ name = chunk_file_name i (page_title d)
    ∧ id d = uuid4 w i
    ∧ get_embeddings_vector w i (chunk_content d) = Return (vector d).
Proof.
  intros Hin. pose proof (ingest_ok w) as Hok. rewrite Forall_forall in Hok.
  destruct (Hok _ Hin) as (_ & _ & filename & chunk & i & Hc & _ & Ht & Hn & Hid & Hv).
  destruct Hc as (Hlist & Hsup & _).
  exists filename, i. repeat split; try done.
  destruct (process_files_names w (listdir w) initial) as [_ Hall].
  { split; [apply NoDup_nil_2 | apply Forall_nil_2]. }
  rewrite Forall_forall in Hall. destruct (Hall name) as (j & t & Hj & Hname).
  { apply list_elem_of_omap. by exists (WriteFile name d). }
  rewrite Hn in Hname. by apply chunk_file_name_inj in Hname as ->.
Qed.

Lemma X18_witness :
  ∃ filename i,
    filename ∈ listdir one_document
    ∧ is_supported filename = true
    ∧ i ≤ chunk_index (final (ingest one_document))
    ∧ page_title sample_chunk = (splitext filename).1
    ∧ py "chunk_1_b.json" = chunk_file_name i (page_title sample_chunk)
    ∧ id sample_chunk = uuid4 one_document i
    ∧ get_embeddings_vector one_document i (chunk_content sample_chunk)
      = Return (vector sample_chunk).
Proof.
  apply (X18_written_chunk_integrity one_document (py "chunk_1_b.json") sample_chunk).
  vm_compute. do 3 apply list_elem_of_further. apply list_elem_of_here.
Defined.

(** ** Whole runs *)

(** X19. When the service answers every call, every chunk file can be
    written, every supported file of the directory gives a list of blocks
    and no normalized block has more than 8191 words, the run finishes,
    numbers the blocks of the supported files from 1 in the order of the
    listing, and writes and embeds the normalized text of every one of
    them, in that order. *)
Theorem X19_every_block_written (w : World) :
  (∀ i text, ∃ v, get_embeddings_vector w i text = Return v) →
  (∀ name d, json_dump w name d = None) →
  (∀ filename, filename ∈ listdir w → is_supported filename = true →
     ∃ blocks,
       extract_text_from_file w (input_directory ++ filename) = Return (Some blocks)) →
  Forall (λ chunk, num_tokens_from_string (clean_markdown_content (strip chunk)) ≤ 8191)
    (all_blocks w (listdir w)) →
  ∃ st,
    ingest w = Finished st
    ∧ chunk_index st = N.of_nat (length (all_blocks w (listdir w)))
    ∧ chunk_content <$> written_chunks (trace st)
      = (λ chunk, clean_markdown_content (strip chunk)) <$> all_blocks w (listdir w)
    ∧ embedded_texts (trace st)
      = (λ chunk, clean_markdown_content (strip chunk)) <$> all_blocks w (listdir w).
Proof.
  intros Hembed Hdump Hex Hfit.
  destruct (process_files_all w (listdir w) initial Hembed Hdump Hex Hfit)
    as (st & Hrun & Hidx & Hw & He).
  exists st. repeat split; try done.
Qed.

Lemma X19_witness :
  ∃ st,
    ingest one_document = Finished st
    ∧ chunk_index st = N.of_nat (length (all_blocks one_document (listdir one_document)))
    ∧ chunk_content <$> written_chunks (trace st)
      = (λ chunk, clean_markdown_content (strip chunk))
          <$> all_blocks one_document (listdir one_document)
    ∧ embedded_texts (trace st)
      = (λ chunk, clean_markdown_content (strip chunk))
          <$> all_blocks one_document (listdir one_document).
Proof.
  apply (X19_every_block_written one_document).
  - intros i text. eexists. reflexivity.
  - intros name d. reflexivity.
  - intros filename ->%list_elem_of_singleton _. eexists. vm_compute. reflexivity.
  - repeat constructor. vm_compute. discriminate.
Defined.

(** X20. The files of the listing that have none of the four suffixes
    play no part in a run: the run over a listing is the run over its
    supported names. *)
Theorem X20_other_files_ignored (w : World) (filenames : list str) (st : state) :
  process_files w filenames st
  = process_files w (List.filter is_supported filenames) st.
Proof.
  revert st. induction filenames as [|filename rest IH]; intros st; [done|].
  cbn [process_files List.filter]. fold (is_supported filename).
  destruct (is_supported filename) eqn:Hsup; [|apply IH].
  cbn [process_files]. fold (is_supported filename). rewrite Hsup.
  destruct (extract_text_from_file w _) as [[ps|]|e]; [|done..].
  destruct (process_chunks w filename _ ps st); [apply IH..|done].
Qed.

(** X21. The page title of a file whose name is a base without slash
    followed by one of the four suffixes is the base; when the base has
    nothing but dots, or is empty, it is the whole name. *)
Theorem X21_page_title (base suffix : str) :
  suffix ∈ suported_file_types →
  (ch "/" ∉ base) →
  (splitext (base ++ suffix)).1
  = if existsb (λ c, negb (c =? ch ".")) base then base else base ++ suffix.
Proof.
  intros Hsuf Hbase.
  assert (∃ e, suffix = ch "." :: e ∧ (ch "/" ∉ e) ∧ (ch "." ∉ e))
    as (e & -> & Hslash & Hdot).
  { unfold suported_file_types in Hsuf.
    repeat (apply elem_of_cons in Hsuf as [-> | Hsuf];
            [eexists; split; [reflexivity|]; split; not_in_literal|]).
    by apply elem_of_nil in Hsuf. }
  rewrite splitext_extension by done.
  by destruct (existsb _ base).
Qed.

Lemma X21_witness :
  (splitext (py "a.b" ++ py ".pdf")).1
  = if existsb (λ c, negb (c =? ch ".")) (py "a.b") then py "a.b"
    else py "a.b" ++ py ".pdf".
Proof.
  apply (X21_page_title (py "a.b") (py ".pdf")).
  - apply list_elem_of_here.
  - not_in_literal.
Defined.

(** X22. A run writes what it embeds, in the same order. When the run
    finishes, the contents of the written chunks are the embedded texts.
    When an exception ends it, either the exception is the one of the
    extraction of a supported file of the directory (or the [TypeError] for
    a file without text), and again the contents of the written chunks are
    the embedded texts; or it is the exception of the embedding call or of
    the write of a chunk, and the embedded texts are the written contents
    followed by the one text of that pass. *)
Theorem X22_written_as_embedded (w : World) :
  match ingest w with
  | Finished st =>
      chunk_content <$> written_chunks (trace st) = embedded_texts (trace st)
  | Aborted e st =>
      (chunk_content <$> written_chunks (trace st) = embedded_texts (trace st)
       ∧ ∃ filename,
           filename ∈ listdir w
           ∧ is_supported filename = true
           ∧ (extract_text_from_file w (input_directory ++ filename) = Raise e
              ∨ (extract_text_from_file w (input_directory ++ filename) = Return None
                 ∧ e = TypeError)))
      ∨ (∃ text,
           embedded_texts (trace st)
           = (chunk_content <$> written_chunks (trace st)) ++ [text]
           ∧ ((∃ i, get_embeddings_vector w i text = Raise e)
              ∨ (∃ name d, chunk_content d = text ∧ json_dump w name d = Some e)))
  end.
Proof. by apply (process_files_embedded w (listdir w) initial). Qed.
